(** * DTCA Apply API (src/server.js): a shallow embedding and its properties

    The server maps application-form answers onto ClickUp custom fields,
    uploads attachments and updates a few fields later on.  This file
    embeds the option cache, the free-text-to-option resolver, the cohort
    resolver and the request handlers that use them, and proves the
    properties stated about them.

    Modelling conventions.
    - A JavaScript string is a [string]: a sequence of code units below 256
      (ASCII and Latin-1).  Code units outside that range are not modelled.
    - A value that is a string or [undefined] (an unset environment
      variable, an absent form field) is a [string] whose empty value
      stands for both: every use in the source is a truthiness test, [||]
      or [&&], for which [undefined] and [''] agree.
    - Remote responses are decoded into the typed views the handlers read.
    - Diagnostics ([console.log], [console.warn]) are not modelled. *)

From Stdlib Require Import Ascii String Bool Arith Lia.
From stdpp Require Import gmap strings list.

Local Open Scope string_scope.
Local Open Scope bool_scope.

(** ** JavaScript string primitives *)

Module Js.

(** Truthiness of a string value: only [''] (and [undefined]) is falsy. *)
Definition truthy (s : string) : bool :=
  match s with
  | EmptyString => false
  | String _ _ => true
  end.

(** [a || b] on strings. *)
Definition or_else (a b : string) : string := if truthy a then a else b.

Definition code (c : ascii) : nat := nat_of_ascii c.

Definition between (lo hi n : nat) : bool := Nat.leb lo n && Nat.leb n hi.

(** [String.prototype.toLowerCase], one code unit: [A-Z] and the Latin-1
    capitals other than the multiplication sign move up by 32. *)
Definition lower_char (c : ascii) : ascii :=
  let n := code c in
  if between 65 90 n || (between 192 222 n && negb (Nat.eqb n 215))
  then ascii_of_nat (n + 32)
  else c.

Fixpoint toLowerCase (s : string) : string :=
  match s with
  | EmptyString => EmptyString
  | String c rest => String (lower_char c) (toLowerCase rest)
  end.

(** White space and line terminators removed by [trim]: TAB, LF, VT, FF,
    CR, SP and NBSP. *)
Definition is_js_space (c : ascii) : bool :=
  let n := code c in between 9 13 n || Nat.eqb n 32 || Nat.eqb n 160.

Fixpoint trimStart (s : string) : string :=
  match s with
  | EmptyString => EmptyString
  | String c rest => if is_js_space c then trimStart rest else s
  end.

Definition trimEnd (s : string) : string :=
  String.rev (trimStart (String.rev s)).

Definition trim (s : string) : string := trimEnd (trimStart s).

(** [s.startsWith(p)]. *)
Fixpoint startsWith (s p : string) {struct p} : bool :=
  match p, s with
  | EmptyString, _ => true
  | String _ _, EmptyString => false
  | String a p', String b s' => if Ascii.eqb a b then startsWith s' p' else false
  end.

(** [s.includes(sub)]: [sub] occurs at some position of [s]. *)
Fixpoint includes (s sub : string) : bool :=
  startsWith s sub ||
  match s with
  | EmptyString => false
  | String _ rest => includes rest sub
  end.

(** [[a-z0-9]] *)
Definition is_alnum (c : ascii) : bool :=
  let n := code c in between 97 122 n || between 48 57 n.

(** [s.replace(/&amp;/g, 'and')].  [skip] counts the code units of a
    match that are still to be dropped. *)
Fixpoint replace_amp_from (skip : nat) (s : string) : string :=
  match s with
  | EmptyString => EmptyString
  | String c rest =>
      match skip with
      | S k => replace_amp_from k rest
      | O =>
          if startsWith s "&amp;"
          then "and" ++ replace_amp_from 4 rest
          else String c (replace_amp_from 0 rest)
      end
  end.

Definition replace_amp (s : string) : string := replace_amp_from 0 s.

(** [s.replace(/[^a-z0-9]+/g, ' ')]: every maximal run of other code
    units becomes one space.  [in_run] tells that the run has begun. *)
Fixpoint collapse_from (in_run : bool) (s : string) : string :=
  match s with
  | EmptyString => EmptyString
  | String c rest =>
      if is_alnum c then String c (collapse_from false rest)
      else if in_run then collapse_from true rest
      else String " " (collapse_from true rest)
  end.

Definition collapse_non_alnum (s : string) : string := collapse_from false s.

End Js.

(** ** Configuration read from the environment *)

(** [COHORT_OPTIONS]: [process.env.COHORT_OCT_ID || null] and
    [process.env.COHORT_JAN_ID || null]. *)
Record CohortOptions := {
  october : option string;
  january : option string
}.

Definition env_or_null (v : string) : option string :=
  if Js.truthy v then Some v else None.

(** ** Cohort resolution *)

(** [resolveCohortOptionId(input)] *)
Definition resolveCohortOptionId (COHORT_OPTIONS : CohortOptions) (input : string)
  : option string :=
  let v := Js.toLowerCase (Js.trim input) in
  if String.eqb v "october" then october COHORT_OPTIONS
  else if String.eqb v "january" then january COHORT_OPTIONS
  else if Js.includes v "dtca-2502" || Js.includes v "oct" then october COHORT_OPTIONS
  else if Js.includes v "dtca-2601" || Js.includes v "jan" then january COHORT_OPTIONS
  else None.

(** ** Custom-field identifiers *)

(** The environment variables the server reads; an unset variable is the
    empty string. *)
Record Env := {
  CLICKUP_TOKEN : string;
  CLICKUP_LIST_ID : string;
  CLICKUP_TEAM_ID : string;
  CLICKUP_CUSTOM_TASK_IDS : string;
  CF_ENGAGEMENT_REQ : string;
  CF_ADDITIONAL_COMMENTS : string;
  CF_EMAIL : string;
  CF_PHONE : string;
  CF_LOCATION : string;
  CF_OTHER_LOCATION : string;
  CF_WORK_ELIGIBILITY : string;
  CF_RELIABLE_COMPUTER : string;
  CF_EDUCATION : string;
  CF_OTHER_EDUCATION : string;
  CF_CLASS_SCHEDULE : string;
  CF_COMMITMENT_LEVEL : string;
  CF_BACKGROUND_CHECK : string;
  CF_HEARD_ABOUT : string;
  CF_COHORT : string;
  CF_DCA_VIDEO_URL : string;
  CF_PAYMENT_METHOD : string;
  CF_GUARANTEE_SIGNED : string;
  COHORT_OCT_ID : string;
  COHORT_JAN_ID : string
}.

(** The [CF] table: the identifiers the handlers use. *)
Record CustomFields := {
  ENGAGEMENT_REQ : string;
  ADDITIONAL_COMMENTS : string;
  EMAIL : string;
  PHONE : string;
  LOCATION : string;
  OTHER_LOCATION : string;
  WORK_ELIGIBILITY : string;
  RELIABLE_COMPUTER : string;
  EDUCATION : string;
  OTHER_EDUCATION : string;
  CLASS_SCHEDULE : string;
  COMMITMENT_LEVEL : string;
  BACKGROUND_CHECK : string;
  HEARD_ABOUT : string;
  COHORT : string;
  DCA_VIDEO_URL : string;
  PAYMENT_METHOD : string
}.

Definition CF (env : Env) : CustomFields := {|
  ENGAGEMENT_REQ := CF_ENGAGEMENT_REQ env;
  ADDITIONAL_COMMENTS := CF_ADDITIONAL_COMMENTS env;
  EMAIL := CF_EMAIL env;
  PHONE := CF_PHONE env;
  LOCATION := CF_LOCATION env;
  OTHER_LOCATION := CF_OTHER_LOCATION env;
  WORK_ELIGIBILITY :=
    Js.or_else (CF_WORK_ELIGIBILITY env) "aec8f523-e21d-4cd7-a359-d52f712009cb";
  RELIABLE_COMPUTER :=
    Js.or_else (CF_RELIABLE_COMPUTER env) "ba53f6aa-997f-4af6-9e52-dd4e76c31723";
  EDUCATION := Js.or_else (CF_EDUCATION env) "54a767b7-175a-46b6-b380-741c654017b2";
  OTHER_EDUCATION := CF_OTHER_EDUCATION env;
  CLASS_SCHEDULE :=
    Js.or_else (CF_CLASS_SCHEDULE env) "90cf8381-4096-4b5c-8d8d-46f679ae7ef0";
  COMMITMENT_LEVEL := CF_COMMITMENT_LEVEL env;
  BACKGROUND_CHECK :=
    Js.or_else (CF_BACKGROUND_CHECK env) "bda2b4d0-d66e-49ef-b315-b8dce562abfd";
  HEARD_ABOUT := Js.or_else (CF_HEARD_ABOUT env) "f44b2bb5-0120-40fd-97c6-17ca42c85d32";
  COHORT := CF_COHORT env;
  DCA_VIDEO_URL := CF_DCA_VIDEO_URL env;
  PAYMENT_METHOD := CF_PAYMENT_METHOD env
|}.

Definition COHORT_OPTIONS (env : Env) : CohortOptions := {|
  october := env_or_null (COHORT_OCT_ID env);
  january := env_or_null (COHORT_JAN_ID env)
|}.

(** ** Option cache and option resolver *)

(** One selectable value of a dropdown field: [{ id, name }]. *)
Record FieldOption := { opt_id : string; opt_name : string }.

(** One entry of a task's [custom_fields]: [{ id: fieldId, value }]. *)
Record FieldAssignment := { field_id : string; field_value : string }.

(** [OPTION_CACHE]: fieldId -> [{id,name}, ...] *)
Abbreviation OptionCache := (gmap string (list FieldOption)).

(** The local [norm] of [optionIdFor]. *)
Definition norm (s : string) : string :=
  Js.trim (Js.collapse_non_alnum (Js.replace_amp (Js.toLowerCase s))).

(** [opts.find(pred)] followed by [if (found) return found.id]. *)
Definition find_id (pred : FieldOption -> bool) (opts : list FieldOption)
  : option string :=
  opt_id <$> List.find pred opts.

(** Sequencing of the early returns: the first rule that yields an id. *)
Definition or_next (a b : option string) : option string :=
  match a with
  | Some x => Some x
  | None => b
  end.

Module WorkEligibility.

(** The regular expression
    [/(^| )(i am )?(a )?(us|u s|u\.s\.) (citizen|permanent resident)/]
    as a matcher in continuation style: each piece consumes a prefix of
    the subject and hands the rest to [k]. *)
Definition matcher := string -> bool.

Fixpoint skip (n : nat) (s : string) : string :=
  match n, s with
  | S k, String _ rest => skip k rest
  | _, _ => s
  end.

Definition lit (p : string) (k : matcher) : matcher :=
  fun s => if Js.startsWith s p then k (skip (String.length p) s) else false.

Definition alt (m1 m2 : matcher) : matcher := fun s => m1 s || m2 s.

Definition opt (p : string) (k : matcher) : matcher := alt (lit p k) k.

Definition accept : matcher := fun _ => true.

(** [(i am )?(a )?(us|u s|u\.s\.) (citizen|permanent resident)] *)
Definition phrase : matcher :=
  opt "i am " (opt "a "
    (let tail := lit " " (alt (lit "citizen" accept) (lit "permanent resident" accept)) in
     alt (lit "us" tail) (alt (lit "u s" tail) (lit "u.s." tail)))).

(** [( )] followed by the phrase, tried at every position. *)
Fixpoint after_space (s : string) : bool :=
  match s with
  | EmptyString => false
  | String c rest => (Ascii.eqb c " " && phrase rest) || after_space rest
  end.

(** [re.test(u)] *)
Definition us_regex_test (u : string) : bool := phrase u || after_space u.

End WorkEligibility.

(** [optionIdFor(fieldId, raw)] *)
Definition optionIdFor (OPTION_CACHE : OptionCache) (cf : CustomFields)
    (fieldId raw : string) : option string :=
  if negb (Js.truthy fieldId) || negb (Js.truthy raw) then None
  else
    let opts := default [] (OPTION_CACHE !! fieldId) in
    let u := norm raw in
    if Nat.eqb (List.length opts) 0 then None
    else
      (* Exact normalized match *)
      or_next (find_id (fun o => String.eqb (norm (opt_name o)) u) opts)
      (* Contains / contained-in *)
      (or_next (find_id (fun o => let on := norm (opt_name o) in
                           Js.includes u on || Js.includes on u) opts)
      (* Yes/No shorthands *)
      (or_next (if String.eqb u "yes" || String.eqb u "y"
                then find_id (fun o => String.eqb (norm (opt_name o)) "yes") opts
                else None)
      (or_next (if String.eqb u "no" || String.eqb u "n"
                then find_id (fun o => String.eqb (norm (opt_name o)) "no") opts
                else None)
      (* Special mapping for Work Eligibility *)
      (if String.eqb fieldId (WORK_ELIGIBILITY cf)
       then
         or_next (if WorkEligibility.us_regex_test u
                     || (Js.includes u "us" && Js.includes u "permanent resident")
                  then find_id (fun o => let on := norm (opt_name o) in
                         Js.includes on "us" &&
                         (Js.includes on "citizen" || Js.includes on "permanent resident"))
                       opts
                  else None)
         (or_next (if Js.includes u "canada" || Js.includes u "canadian"
                   then find_id (fun o => let on := norm (opt_name o) in
                          Js.includes on "canada" || Js.includes on "canadian") opts
                   else None)
         (if Js.includes u "none" || Js.includes u "not eligible"
          then find_id (fun o => let on := norm (opt_name o) in
                 Js.includes on "not eligible" || Js.includes on "none") opts
          else None))
       else None)))).

(** Truthiness of the value [optionIdFor] returned ([null] is falsy). *)
Definition id_truthy (id : option string) : bool :=
  match id with
  | Some s => Js.truthy s
  | None => false
  end.

(** [pushDropdownOrText(custom_fields, fieldId, raw)]: the list after the
    call. *)
Definition pushDropdownOrText (OPTION_CACHE : OptionCache) (cf : CustomFields)
    (custom_fields : list FieldAssignment) (fieldId raw : string)
  : list FieldAssignment :=
  if negb (Js.truthy fieldId) || negb (Js.truthy raw) then custom_fields
  else
    let hasOptions := bool_decide (is_Some (OPTION_CACHE !! fieldId)) in
    let id := optionIdFor OPTION_CACHE cf fieldId raw in
    if id_truthy id
    then custom_fields ++ [ {| field_id := fieldId; field_value := default "" id |} ]
    else if negb hasOptions
    then custom_fields ++ [ {| field_id := fieldId; field_value := raw |} ]
    else custom_fields.

(** ** The remote task-tracking API and the handlers' effects *)

(** Body of the task-creation request. *)
Record TaskBody := {
  task_name : string;
  task_description : string;
  task_custom_fields : list FieldAssignment
}.

(** Entries of the temporary directories: raw bytes or a rendered
    document. *)
Inductive DocOp :=
| FontSize (n : nat)
| FillColor (c : string)
| Text (s : string)
| MoveDown
| AddPage
| Image (bytes : string)
| End.

Inductive FileData :=
| Bytes (b : string)
| Pdf (ops : list DocOp).

(** The calls the server makes to [api.clickup.com]. *)
Inductive Call :=
| GetListFields (list_id : string)
| GetTask (custom_task_id team_id : string)
| CreateTask (list_id : string) (body : TaskBody)
| UploadAttachment (task_id query filename mime : string) (content : FileData)
| SetField (task_id field query value : string).

(** A field definition of the list: [f.id] and [f.type_config?.options],
    present exactly when it is an array. *)
Record FieldDef := {
  def_id : string;
  def_options : option (list FieldOption)
}.

(** What the handlers read of a parsed response body.  A member that is
    absent is the empty string or the empty list. *)
Record Json := {
  j_text : string;
  j_fields : list FieldDef;
  j_id : string;
  j_custom_id : string;
  j_url : string;
  j_attachment_url : string;
  j_first_url : string
}.

(** A response: its status, and its body when that parses as JSON
    ([r.json()] rejects otherwise). *)
Record Response := {
  status : nat;
  json : option Json
}.

(** [r.ok] *)
Definition ok (r : Response) : bool := Js.between 200 299 (status r).

(** A [fetch] either rejects (network failure) or answers. *)
Inductive Outcome :=
| Rejects (e : string)
| Answers (r : Response).

(** Everything outside the process: the remote API, which may answer
    according to the exchanges so far, the clock, the name [mkdtempSync]
    picks, the base64 decoder, whether PDFKit can place given bytes as an
    image and whether the write stream finishes. *)
Record World := {
  remote : list (Call * Outcome) -> Call -> Outcome;
  now_iso : string;
  now_ms : string;
  now_locale : string;
  to_locale : string -> string;
  mkdtemp : string;
  base64_decode : string -> string;
  image_parses : string -> bool;
  stream_finishes : bool
}.

(** The process state a handler can change: the option cache, the
    exchanges with the remote API so far (each call with its outcome) and
    the temporary directories with their entries. *)
Record State := {
  cache : OptionCache;
  calls : list (Call * Outcome);
  tmp : gmap string (gmap string FileData)
}.

(** A step either returns or throws; the state changes made before a
    throw stay. *)
Inductive Result (A : Type) :=
| Returns (a : A)
| Throws (e : string).
Arguments Returns {A} a.
Arguments Throws {A} e.

Definition Handler (A : Type) : Type := State -> Result A * State.

#[global] Instance Handler_ret : MRet Handler := fun A a st => (Returns a, st).

#[global] Instance Handler_bind : MBind Handler := fun A B k m st =>
  match m st with
  | (Returns a, st') => k a st'
  | (Throws e, st') => (Throws e, st')
  end.

#[global] Instance Handler_throw : MThrow string Handler := fun A e st => (Throws e, st).

(** [try { m } catch (e) { h(e) }] *)
Definition try_catch {A} (m : Handler A) (h : string -> Handler A) : Handler A :=
  fun st =>
    match m st with
    | (Returns a, st') => (Returns a, st')
    | (Throws e, st') => h e st'
    end.

Definition get_cache : Handler OptionCache := fun st => (Returns (cache st), st).

Definition set_cache (c : OptionCache) : Handler unit := fun st =>
  (Returns tt, {| cache := c; calls := calls st; tmp := tmp st |}).

Definition get_tmp : Handler (gmap string (gmap string FileData)) :=
  fun st => (Returns (tmp st), st).

Definition set_tmp (t : gmap string (gmap string FileData)) : Handler unit := fun st =>
  (Returns tt, {| cache := cache st; calls := calls st; tmp := t |}).

(** [await fetch(...)]: the world decides the outcome, and the exchange
    is recorded. *)
Definition fetch (w : World) (c : Call) : Handler Response := fun st =>
  let outcome := remote w (calls st) c in
  let st' := {| cache := cache st; calls := calls st ++ [(c, outcome)]; tmp := tmp st |} in
  match outcome with
  | Rejects e => (Throws e, st')
  | Answers r => (Returns r, st')
  end.

(** The exchanges a handler added to those of the state it started in. *)
Definition new_calls (st st' : State) : list (Call * Outcome) :=
  drop (List.length (calls st)) (calls st').

(** [await r.json()] *)
Definition res_json (r : Response) : Handler Json :=
  match json r with
  | Some j => mret j
  | None => mthrow "SyntaxError: Unexpected token in JSON"
  end.

(** [await r.json().catch(() => ({}))] *)
Definition empty_json : Json :=
  {| j_text := "{}"; j_fields := []; j_id := ""; j_custom_id := ""; j_url := "";
     j_attachment_url := ""; j_first_url := "" |}.

Definition res_json_or_empty (r : Response) : Json := default empty_json (json r).

(** ** Warming the option cache *)

(** The [forEach] of [warmDropdowns]: a field with an option array sets
    its entry, a later field with the same id overwrites it. *)
Definition cache_field (c : OptionCache) (f : FieldDef) : OptionCache :=
  match def_options f with
  | Some options =>
      <[ def_id f := List.map (fun o => {| opt_id := opt_id o; opt_name := opt_name o |}) options ]> c
  | None => c
  end.

(** [warmDropdowns()] *)
Definition warmDropdowns (w : World) (env : Env) : Handler unit :=
  _ ← set_cache ∅;
  try_catch
    (r ← fetch w (GetListFields (CLICKUP_LIST_ID env));
     json ← res_json r;
     let fields := j_fields json in
     c ← get_cache;
     set_cache (foldl cache_field c fields))
    (fun _ => mret tt).

(** ** What a handler answers *)

(** The [upload] member of the creation response. *)
Inductive UploadMsg :=
| UploadOk
| UploadFailed (up_status : nat) (up_body : string)
| UploadException (err : string).

(** The JSON bodies the handlers send. *)
Inductive Payload :=
| ValidationError (field message : string)
| ClickupCreateFailed (err list_id : string) (sent_custom_fields : list string)
| ApplyOk (taskId customTaskId taskUrl : string) (upload : UploadMsg)
| ServerError (detail : string)
| ErrorMessage (message : string)
| ErrorDetails (message details : string)
| CohortOk (idUsed : string) (usedCustom : bool) (cohort optionId : string)
| SignFailed (error : string)
| SignOk (attachment : string).

Record HttpResponse := {
  http_status : nat;
  payload : Payload
}.

(** [res.status(n).json(p)]; [res.json(p)] answers 200. *)
Definition respond (n : nat) (p : Payload) : Handler HttpResponse :=
  mret {| http_status := n; payload := p |}.

(** ** The creation endpoint *)

(** The text fields of a submission, before and after [normalizePayload]. *)
Record Form := {
  fullName : string;
  email : string;
  phone : string;
  location : string;
  otherLocation : string;
  workEligibility : string;
  reliableComputer : string;
  backgroundCheck : string;
  hasExperience : string;
  experienceDescription : string;
  certCompleted : string;
  certificationsListed : string;
  education : string;
  otherEducation : string;
  classSchedule : string;
  commitmentLevel : string;
  heardAbout : string;
  engagementText : string;
  additionalComments : string
}.

(** [req.file] as multer's memory storage leaves it. *)
Record UploadedFile := {
  buffer : string;
  originalname : string;
  mimetype : string
}.

Record ApplyRequest := {
  body : Form;
  file : option UploadedFile
}.

(** [b.x && String(b.x).trim()] *)
Definition trimmed (x : string) : string := if Js.truthy x then Js.trim x else x.

(** [normalizePayload(req)] *)
Definition normalizePayload (req : ApplyRequest) : Form :=
  let b := body req in {|
    fullName := trimmed (fullName b);
    email := trimmed (email b);
    phone := trimmed (phone b);
    location := trimmed (location b);
    otherLocation := trimmed (otherLocation b);
    workEligibility := trimmed (workEligibility b);
    reliableComputer := trimmed (reliableComputer b);
    backgroundCheck := trimmed (backgroundCheck b);
    hasExperience := trimmed (hasExperience b);
    experienceDescription := trimmed (experienceDescription b);
    certCompleted := trimmed (certCompleted b);
    certificationsListed := trimmed (certificationsListed b);
    education := trimmed (education b);
    otherEducation := trimmed (otherEducation b);
    classSchedule := trimmed (classSchedule b);
    commitmentLevel := trimmed (commitmentLevel b);
    heardAbout := trimmed (heardAbout b);
    engagementText := trimmed (engagementText b);
    additionalComments := trimmed (additionalComments b)
  |}.

Definition nl : string := String (ascii_of_nat 10) EmptyString.

(** [if (v) rows.push(line)] *)
Definition row_if (v line : string) (rows : list string) : list string :=
  if Js.truthy v then rows ++ [line] else rows.

(** [rows.join('\n')] *)
Fixpoint join_lines (rows : list string) : string :=
  match rows with
  | [] => ""
  | [r] => r
  | r :: rest => r ++ nl ++ join_lines rest
  end.

(** [${other ? ' (' + other + ')' : ''}] *)
Definition parenthesized (other : string) : string :=
  if Js.truthy other then " (" ++ other ++ ")" else "".

(** [buildTaskDescription(p)] *)
Definition buildTaskDescription (p : Form) : string :=
  let rows := [] in
  let rows := row_if (email p) ("- **Email:** " ++ email p) rows in
  let rows := row_if (phone p) ("- **Phone:** " ++ phone p) rows in
  let rows := row_if (location p)
    ("- **Location:** " ++ location p ++ parenthesized (otherLocation p)) rows in
  let rows := row_if (workEligibility p)
    ("- **Work eligibility:** " ++ workEligibility p) rows in
  let rows := row_if (education p)
    ("- **Education:** " ++ education p ++ parenthesized (otherEducation p)) rows in
  let rows := row_if (heardAbout p) ("- **Heard about us:** " ++ heardAbout p) rows in
  let rows := row_if (classSchedule p)
    ("- **Class availability:** " ++ classSchedule p) rows in
  let rows := row_if (commitmentLevel p) ("- **Commitment:** " ++ commitmentLevel p) rows in
  let rows := row_if (hasExperience p)
    ("- **Prior IT experience:** " ++ hasExperience p) rows in
  let rows := row_if (experienceDescription p)
    (nl ++ "**Experience details**" ++ nl ++ experienceDescription p) rows in
  let rows := row_if (certCompleted p)
    (nl ++ "**Certifications status:** " ++ certCompleted p) rows in
  let rows := row_if (certificationsListed p)
    ("**Certifications listed:** " ++ certificationsListed p) rows in
  let rows := row_if (engagementText p)
    (nl ++ "**Engagement requirement ack:** " ++ engagementText p) rows in
  let rows := row_if (additionalComments p)
    (nl ++ "**Additional comments**" ++ nl ++ additionalComments p) rows in
  join_lines rows.

(** [if (fieldId && v) custom_fields.push({ id: fieldId, value: v })] *)
Definition push_text (custom_fields : list FieldAssignment) (fieldId v : string)
  : list FieldAssignment :=
  if Js.truthy fieldId && Js.truthy v
  then custom_fields ++ [ {| field_id := fieldId; field_value := v |} ]
  else custom_fields.

(** The [custom_fields] the creation handler builds from the payload. *)
Definition build_custom_fields (OPTION_CACHE : OptionCache) (cf : CustomFields)
    (p : Form) : list FieldAssignment :=
  let push := pushDropdownOrText OPTION_CACHE cf in
  let custom_fields := [] in
  let custom_fields := push_text custom_fields (EMAIL cf) (email p) in
  let custom_fields := push_text custom_fields (PHONE cf) (phone p) in
  let custom_fields :=
    if Js.truthy (LOCATION cf) && Js.truthy (location p)
    then push custom_fields (LOCATION cf) (location p)
    else custom_fields in
  let custom_fields := push_text custom_fields (OTHER_LOCATION cf) (otherLocation p) in
  let custom_fields := push custom_fields (WORK_ELIGIBILITY cf) (workEligibility p) in
  let custom_fields := push custom_fields (RELIABLE_COMPUTER cf) (reliableComputer p) in
  let custom_fields := push custom_fields (BACKGROUND_CHECK cf) (backgroundCheck p) in
  let custom_fields := push custom_fields (EDUCATION cf) (education p) in
  let custom_fields := push_text custom_fields (OTHER_EDUCATION cf) (otherEducation p) in
  let custom_fields := push custom_fields (CLASS_SCHEDULE cf) (classSchedule p) in
  let custom_fields := push custom_fields (COMMITMENT_LEVEL cf) (commitmentLevel p) in
  let custom_fields := push custom_fields (HEARD_ABOUT cf) (heardAbout p) in
  let custom_fields := push_text custom_fields (ENGAGEMENT_REQ cf) (engagementText p) in
  push_text custom_fields (ADDITIONAL_COMMENTS cf) (additionalComments p).

(** [req.file && req.file.buffer && req.file.buffer.length] *)
Definition has_video (req : ApplyRequest) : bool :=
  match file req with
  | Some f => negb (Nat.eqb (String.length (buffer f)) 0)
  | None => false
  end.

Definition team_query (env : Env) : string :=
  "?custom_task_ids=true&team_id=" ++ CLICKUP_TEAM_ID env.

(** The video upload of the creation handler: the body of its inner
    [try]. *)
Definition upload_video (w : World) (env : Env) (taskId : string) (f : UploadedFile)
  : Handler UploadMsg :=
  up ← fetch w (UploadAttachment taskId (team_query env)
                  (Js.or_else (originalname f) "video.mp4")
                  (Js.or_else (mimetype f) "application/octet-stream")
                  (Bytes (buffer f)));
  let upJson := res_json_or_empty up in
  if negb (ok up) then mret (UploadFailed (status up) (j_text upJson))
  else
    let attUrl :=
      Js.or_else (j_url upJson)
        (Js.or_else (j_attachment_url upJson) (j_first_url upJson)) in
    _ ← (if Js.truthy attUrl && Js.truthy (DCA_VIDEO_URL (CF env))
         then (_ ← fetch w (SetField taskId (DCA_VIDEO_URL (CF env)) (team_query env) attUrl);
               mret tt)
         else mret tt);
    mret UploadOk.

(** [app.post('/api/apply', ...)] *)
Definition apply_handler (w : World) (env : Env) (req : ApplyRequest)
  : Handler HttpResponse :=
  try_catch
    (_ ← warmDropdowns w env;
     let p := normalizePayload req in
     if negb (has_video req)
     then respond 200 (ValidationError "videoFile"
                         "Please upload a short intro video (required).")
     else
       OPTION_CACHE ← get_cache;
       let custom_fields := build_custom_fields OPTION_CACHE (CF env) p in
       let body := {|
         task_name := Js.or_else (fullName p) ("Application " ++ now_iso w);
         task_description := buildTaskDescription p;
         task_custom_fields := custom_fields |} in
       create ← fetch w (CreateTask (CLICKUP_LIST_ID env) body);
       created ← res_json create;
       if negb (ok create)
       then respond 200 (ClickupCreateFailed (j_text created) (CLICKUP_LIST_ID env)
                           (List.map field_id custom_fields))
       else
         let taskId := j_id created in
         uploadMsg ←
           match file req with
           | Some f =>
               if Js.truthy taskId && has_video req
               then try_catch (upload_video w env taskId f)
                      (fun e => mret (UploadException e))
               else mret UploadOk
           | None => mret UploadOk
           end;
         respond 200 (ApplyOk taskId (j_custom_id created) (j_url created) uploadMsg))
    (fun err => respond 200 (ServerError err)).

(** ** The cohort endpoint *)

Record CohortRequest := {
  co_taskId : string;
  co_customTaskId : string;
  cohort : string
}.

(** [String(process.env.CLICKUP_CUSTOM_TASK_IDS).toLowerCase() === 'true'] *)
Definition useCustom (env : Env) : bool :=
  String.eqb (Js.toLowerCase (CLICKUP_CUSTOM_TASK_IDS env)) "true".

(** [app.post('/api/cohort', ...)] *)
Definition cohort_handler (w : World) (env : Env) (req : CohortRequest)
  : Handler HttpResponse :=
  try_catch
    (if negb (Js.truthy (cohort req))
     then respond 400 (ErrorMessage "cohort is required")
     else if negb (Js.truthy (COHORT (CF env)))
     then respond 500 (ErrorMessage "CF_COHORT not configured on server")
     else
       let optionId := resolveCohortOptionId (COHORT_OPTIONS env) (cohort req) in
       if negb (id_truthy optionId)
       then respond 400 (ErrorMessage
              "Unknown cohort value; expected 'october' or 'january' (or DTCA-2502/DTCA-2601 label).")
       else
         let idToUse :=
           if useCustom env then Js.or_else (co_customTaskId req) (co_taskId req)
           else co_taskId req in
         if negb (Js.truthy idToUse)
         then respond 400 (ErrorMessage
                (if useCustom env
                 then "Missing customTaskId (or taskId fallback) while CLICKUP_CUSTOM_TASK_IDS=true"
                 else "Missing taskId"))
         else
           let qs := if useCustom env && Js.truthy (CLICKUP_TEAM_ID env)
                     then team_query env else "" in
           r ← fetch w (SetField idToUse (COHORT (CF env)) qs (default "" optionId));
           let j := res_json_or_empty r in
           if negb (ok r)
           then respond 400 (ErrorDetails "clickup_update_failed" (j_text j))
           else respond 200 (CohortOk idToUse (useCustom env) (cohort req)
                               (default "" optionId)))
    (fun _ => respond 500 (ErrorMessage "server_error")).

(** ** The guarantee-signature endpoint *)

Record SignRequest := {
  sg_taskId : string;
  sg_customTaskId : string;
  sg_fullName : string;
  signedAt : string;
  termsText : string;
  signaturePng : string
}.

(** [resolveTaskId({ taskId, customTaskId })]; [null] is the empty string. *)
Definition resolveTaskId (w : World) (env : Env) (taskId customTaskId : string)
  : Handler string :=
  if Js.truthy taskId then mret taskId
  else if negb (Js.truthy customTaskId) then mret ""
  else
    r ← fetch w (GetTask customTaskId (CLICKUP_TEAM_ID env));
    if negb (ok r) then mret ""
    else
      t ← res_json r;
      mret (j_id t).

(** [s.split(',')[1]]: what lies between the first comma and the next;
    [undefined] without a comma. *)
Fixpoint upto_comma (s : string) : string :=
  match s with
  | EmptyString => EmptyString
  | String c rest => if Ascii.eqb c "," then EmptyString else String c (upto_comma rest)
  end.

Fixpoint split_comma_1 (s : string) : string :=
  match s with
  | EmptyString => EmptyString
  | String c rest => if Ascii.eqb c "," then upto_comma rest else split_comma_1 rest
  end.

(** [[\w\- ]]: the code units a file name keeps. *)
Definition is_name_char (c : ascii) : bool :=
  let n := Js.code c in
  Js.between 97 122 n || Js.between 65 90 n || Js.between 48 57 n
  || Nat.eqb n 95 || Nat.eqb n 45 || Nat.eqb n 32.

(** [s.replace(/[^\w\- ]+/g, '')] *)
Fixpoint strip_name (s : string) : string :=
  match s with
  | EmptyString => EmptyString
  | String c rest => if is_name_char c then String c (strip_name rest) else strip_name rest
  end.

(** [fs.mkdtempSync]: a new, empty directory under the name the system
    picks. *)
Definition mkdtempSync (w : World) : Handler string :=
  t ← get_tmp;
  match t !! mkdtemp w with
  | Some _ => mthrow "EEXIST"
  | None => _ ← set_tmp (<[ mkdtemp w := ∅ ]> t); mret (mkdtemp w)
  end.

(** Writing [path.join(dir, name)]. *)
Definition write_file (dir name : string) (d : FileData) : Handler unit :=
  t ← get_tmp;
  match t !! dir with
  | Some entries => set_tmp (<[ dir := <[ name := d ]> entries ]> t)
  | None => mthrow "ENOENT"
  end.

(** [fs.readFileSync(path.join(dir, name))] *)
Definition readFileSync (dir name : string) : Handler FileData :=
  t ← get_tmp;
  match t !! dir ≫= (fun entries => entries !! name) with
  | Some d => mret d
  | None => mthrow "ENOENT"
  end.

(** [fs.unlinkSync(path.join(dir, name))] *)
Definition unlinkSync (dir name : string) : Handler unit :=
  t ← get_tmp;
  match t !! dir with
  | Some entries =>
      match entries !! name with
      | Some _ => set_tmp (<[ dir := delete name entries ]> t)
      | None => mthrow "ENOENT"
      end
  | None => mthrow "ENOENT"
  end.

(** [fs.rmdirSync(dir)]: only an empty directory goes. *)
Definition rmdirSync (dir : string) : Handler unit :=
  t ← get_tmp;
  match t !! dir with
  | Some entries =>
      if bool_decide (entries = ∅) then set_tmp (delete dir t)
      else mthrow "ENOTEMPTY"
  | None => mthrow "ENOENT"
  end.

(** [try { m } catch (_) {}] *)
Definition ignore_errors (m : Handler unit) : Handler unit :=
  try_catch m (fun _ => mret tt).

(** The drawing calls before and after the signature image.  The dash of
    the title stands for U+2014. *)
Definition page_one (w : World) (req : SignRequest) : list DocOp :=
  [ FontSize 18; Text "Dion Training - Career Accelerator Job Guarantee"; MoveDown;
    FontSize 10; FillColor "#555";
    Text ("Signed by: " ++ Js.or_else (sg_fullName req) "N/A");
    Text ("Signed at: " ++ Js.or_else (signedAt req) (now_iso w));
    MoveDown;
    FillColor "#000"; FontSize 12; Text (termsText req);
    AddPage; FontSize 14; Text "Signature"; MoveDown ].

Definition after_image (w : World) (req : SignRequest) : list DocOp :=
  [ MoveDown; FontSize 12; Text ("Name: " ++ sg_fullName req);
    Text ("Date: " ++ (if Js.truthy (signedAt req) then to_locale w (signedAt req)
                       else now_locale w));
    End ].

(** [try { doc.image(imgPath, { fit: [400, 120] }); } catch (_) {}] *)
Definition place_image (w : World) (sigBuf : string) : list DocOp :=
  if image_parses w sigBuf then [ Image sigBuf ] else [].

(** The promise that renders the document into [pdfPath]: it resolves
    when the stream finishes and rejects on a stream error. *)
Definition render_pdf (w : World) (req : SignRequest) (tmpDir fileName sigBuf : string)
  : Handler unit :=
  _ ← write_file tmpDir "sig.png" (Bytes sigBuf);
  let doc := (page_one w req ++ place_image w sigBuf ++ after_image w req)%list in
  if stream_finishes w then write_file tmpDir fileName (Pdf doc)
  else mthrow "stream error".

(** [app.post('/api/guarantee-sign', ...)] *)
Definition guarantee_sign_handler (w : World) (env : Env) (req : SignRequest)
  : Handler HttpResponse :=
  try_catch
    (resolvedTaskId ← resolveTaskId w env (sg_taskId req) (sg_customTaskId req);
     if negb (Js.truthy resolvedTaskId) then respond 400 (SignFailed "task_not_found")
     else
       let b64 := split_comma_1 (signaturePng req) in
       if negb (Js.truthy b64) then respond 400 (SignFailed "bad_signature")
       else
         let sigBuf := base64_decode w b64 in
         tmpDir ← mkdtempSync w;
         let fileName :=
           "DCA-Job-Guarantee-" ++ strip_name (Js.or_else (sg_fullName req) "Applicant")
           ++ "-" ++ now_ms w ++ ".pdf" in
         _ ← render_pdf w req tmpDir fileName sigBuf;
         pdfBuf ← readFileSync tmpDir fileName;
         up ← fetch w (UploadAttachment resolvedTaskId "" fileName "application/pdf" pdfBuf);
         let upBody := res_json_or_empty up in
         (* cleanup temp files *)
         _ ← ignore_errors (unlinkSync tmpDir "sig.png");
         _ ← ignore_errors (unlinkSync tmpDir fileName);
         _ ← ignore_errors (rmdirSync tmpDir);
         _ ← (if Js.truthy (CF_GUARANTEE_SIGNED env)
              then try_catch
                     (_ ← fetch w (SetField resolvedTaskId (CF_GUARANTEE_SIGNED env) "" "true");
                      mret tt)
                     (fun _ => mret tt)
              else mret tt);
         respond 200 (SignOk (j_text upBody)))
    (fun _ => respond 500 (SignFailed "server_error")).

(** ** Sample data *)

Definition sample_env : Env := {|
  CLICKUP_TOKEN := "pk_token";
  CLICKUP_LIST_ID := "901";
  CLICKUP_TEAM_ID := "77";
  CLICKUP_CUSTOM_TASK_IDS := "";
  CF_ENGAGEMENT_REQ := "";
  CF_ADDITIONAL_COMMENTS := "";
  CF_EMAIL := "cf-email";
  CF_PHONE := "";
  CF_LOCATION := "";
  CF_OTHER_LOCATION := "";
  CF_WORK_ELIGIBILITY := "";
  CF_RELIABLE_COMPUTER := "";
  CF_EDUCATION := "";
  CF_OTHER_EDUCATION := "";
  CF_CLASS_SCHEDULE := "";
  CF_COMMITMENT_LEVEL := "";
  CF_BACKGROUND_CHECK := "";
  CF_HEARD_ABOUT := "";
  CF_COHORT := "cf-cohort";
  CF_DCA_VIDEO_URL := "";
  CF_PAYMENT_METHOD := "";
  CF_GUARANTEE_SIGNED := "";
  COHORT_OCT_ID := "opt-october";
  COHORT_JAN_ID := "opt-january"
|}.


(** The work-eligibility dropdown with its three options, the first one
    written "US ..." in one cache and "U.S. ..." in the other. *)
Definition we_field : string := WORK_ELIGIBILITY (CF sample_env).

Definition we_options (first_name : string) : list FieldOption :=
  [ {| opt_id := "opt-us"; opt_name := first_name |};
    {| opt_id := "opt-ca"; opt_name := "Canadian Citizen or Permanent Resident" |};
    {| opt_id := "opt-none"; opt_name := "None of the above" |} ].

Definition cache_us : OptionCache :=
  {[ we_field := we_options "US Citizen or Permanent Resident" ]}.

Definition cache_dotted : OptionCache :=
  {[ we_field := we_options "U.S. Citizen or Permanent Resident" ]}.

(** A Yes/No dropdown. *)
Definition cache_yes_no : OptionCache :=
  {[ "cf-class" := [ {| opt_id := "opt-no"; opt_name := "No" |};
                     {| opt_id := "opt-yes"; opt_name := "Yes" |} ] ]}.

(** A process whose cache holds entries of an earlier refresh. *)
Definition stale_state : State := {| cache := cache_yes_no; calls := []; tmp := ∅ |}.

Definition sample_form : Form := {|
  fullName := "Ada Byron";
  email := "ada@example.org";
  phone := "";
  location := "";
  otherLocation := "";
  workEligibility := "us citizen";
  reliableComputer := "";
  backgroundCheck := "";
  hasExperience := "";
  experienceDescription := "";
  certCompleted := "";
  certificationsListed := "";
  education := "";
  otherEducation := "";
  classSchedule := "yes";
  commitmentLevel := "";
  heardAbout := "";
  engagementText := "";
  additionalComments := ""
|}.

Definition request_without_video : ApplyRequest :=
  {| body := sample_form; file := None |}.


Definition created_task : Json :=
  {| j_text := "{'id':'86a1b2c3'}"; j_fields := []; j_id := "86a1b2c3";
     j_custom_id := ""; j_url := "https://app.clickup.com/t/86a1b2c3";
     j_attachment_url := ""; j_first_url := "" |}.

(** A remote API that lists no fields, creates the task and answers every
    other call, the attachment upload among them, with status 500. *)
Definition upload_500 (_ : list (Call * Outcome)) (c : Call) : Outcome :=
  match c with
  | GetListFields _ => Answers {| status := 200; json := Some empty_json |}
  | CreateTask _ _ => Answers {| status := 200; json := Some created_task |}
  | _ => Answers {| status := 500; json := None |}
  end.

(** A remote API that resolves and creates tasks and cannot be reached
    for an attachment upload. *)
Definition upload_unreachable (_ : list (Call * Outcome)) (c : Call) : Outcome :=
  match c with
  | UploadAttachment _ _ _ _ _ => Rejects "TypeError: fetch failed"
  | GetListFields _ => Answers {| status := 200; json := Some empty_json |}
  | _ => Answers {| status := 200; json := Some created_task |}
  end.

Definition sign_request : SignRequest := {|
  sg_taskId := "86a1b2c3";
  sg_customTaskId := "";
  sg_fullName := "Ada Byron";
  signedAt := "2025-09-30T12:00:00Z";
  termsText := "I accept the terms of the job guarantee.";
  signaturePng := "data:image/png;base64,iVBORw0KGgo="
|}.

(** ** Vocabulary of the statements *)

(** An option name, normalized, that has nothing in common with the
    inputs "us citizen" and "u s citizen": it contains neither "us" nor
    "u s citizen" and occurs in neither input. *)
Definition unrelated_to_us_citizen (o : FieldOption) : Prop :=
  let on := norm (opt_name o) in
  Js.includes on "us" = false /\ Js.includes on "u s citizen" = false /\
  Js.includes "us citizen" on = false /\ Js.includes "u s citizen" on = false.

(** The cache a refresh leaves, as a function of the outcome of its
    fetch. *)
Definition warmed_cache (outcome : Outcome) : OptionCache :=
  match outcome with
  | Answers r =>
      match json r with
      | Some j => foldl cache_field ∅ (j_fields j)
      | None => ∅
      end
  | Rejects _ => ∅
  end.

(** The fetch of a refresh fails when it rejects or when its body does
    not parse. *)
Definition fetch_failed (outcome : Outcome) : Prop :=
  match outcome with
  | Answers r => json r = None
  | Rejects _ => True
  end.

(** A process that has just started: nothing cached, nothing sent, no
    temporary directory. *)
Definition fresh_state : State := {| cache := ∅; calls := []; tmp := ∅ |}.

(** A world around a given remote API. *)
Definition world_with (api : list (Call * Outcome) -> Call -> Outcome) : World := {|
  remote := api;
  now_iso := "2025-09-30T12:00:00.000Z";
  now_ms := "1759233600000";
  now_locale := "9/30/2025, 12:00:00 PM";
  to_locale := fun s => s;
  mkdtemp := "/tmp/dtca-a1b2c3";
  base64_decode := fun s => s;
  image_parses := fun _ => false;
  stream_finishes := true
|}.

(** A world whose remote API cannot be reached. *)
Definition offline_world : World :=
  world_with (fun _ _ => Rejects "TypeError: fetch failed").

(** ** Vocabulary of the further properties *)

(** Every code unit of [s] satisfies [p]. *)
Fixpoint all_chars (p : ascii -> bool) (s : string) : bool :=
  match s with
  | EmptyString => true
  | String c rest => p c && all_chars p rest
  end.

(** [s] begins with a code unit that [trim] removes. *)
Definition starts_with_space (s : string) : bool :=
  match s with
  | EmptyString => false
  | String c _ => Js.is_js_space c
  end.

(** [s] has white space at neither end. *)
Definition no_edge_space (s : string) : Prop :=
  starts_with_space s = false /\ starts_with_space (String.rev s) = false.

(** [s] is made of [[a-z0-9]] and single spaces; [after_space] tells that
    a space stands right before [s]. *)
Fixpoint collapsed (after_space : bool) (s : string) : bool :=
  match s with
  | EmptyString => true
  | String c rest =>
      if Js.is_alnum c then collapsed false rest
      else Ascii.eqb c " " && negb after_space && collapsed true rest
  end.


(** ** The payment-method endpoint *)

Record PaymentRequest := {
  pm_taskId : string;
  pm_customTaskId : string;
  method : string
}.

(** The JSON bodies the payment-method handler sends. *)
Inductive PaymentPayload :=
| PaymentError (message : string)
| PaymentErrorDetails (message details : string)
| PaymentOk (paid_by : string) (usedCustom : bool) (fieldId : string).

Record PaymentResponse := {
  pm_status : nat;
  pm_payload : PaymentPayload
}.

Definition pm_respond (n : nat) (p : PaymentPayload) : Handler PaymentResponse :=
  mret {| pm_status := n; pm_payload := p |}.

(** What [optionIdMap[method]] yields.  The object has three keys of its
    own; under any other name the lookup follows the prototype chain, and
    finds a member of [Object.prototype] if that has one of that name
    (such as [constructor] or [toString]): a function or an object, hence
    truthy.  [rendering] is what [JSON.stringify] leaves of the member as
    the [value] of the request body. *)
Inductive MethodLookup :=
| OwnId (id : string)
| Inherited (rendering : string)
| Undefined.

(** [optionIdMap[method]]; [inherited] tells the names [Object.prototype]
    defines and how their members are rendered. *)
Definition optionIdMap (inherited : string -> option string) (method : string)
  : MethodLookup :=
  if String.eqb method "pay_in_full" then OwnId "203361fe-94f4-4173-96d9-2e7335cc6be7"
  else if String.eqb method "pay_as_you_go" then OwnId "5f6b1dc7-b5b4-4a30-817b-8e5e5026e3a6"
  else if String.eqb method "climb_loan" then OwnId "ff05f2a5-a7c4-42f9-8a48-bb1c6ce1eb2c"
  else match inherited method with
       | Some rendering => Inherited rendering
       | None => Undefined
       end.

(** The [value] sent for what the lookup found. *)
Definition sent_value (found : MethodLookup) : string :=
  match found with
  | OwnId id => id
  | Inherited rendering => rendering
  | Undefined => ""
  end.

(** [app.post('/api/payment-method', ...)] *)
Definition payment_method_handler (inherited : string -> option string)
    (w : World) (env : Env) (req : PaymentRequest) : Handler PaymentResponse :=
  try_catch
    (if negb (Js.truthy (PAYMENT_METHOD (CF env)))
     then pm_respond 500 (PaymentError "CF_PAYMENT_METHOD not configured")
     else
       resolvedTaskId ← resolveTaskId w env (pm_taskId req) (pm_customTaskId req);
       if negb (Js.truthy resolvedTaskId) && negb (useCustom env)
       then pm_respond 400
              (PaymentError "taskId required (or customTaskId if using custom ids)")
       else
         let idToUse :=
           if useCustom env then Js.or_else (pm_customTaskId req) resolvedTaskId
           else resolvedTaskId in
         if negb (Js.truthy idToUse)
         then pm_respond 400 (PaymentError "could not resolve task id")
         else
           match optionIdMap inherited (method req) with
           | Undefined =>
               pm_respond 400
                 (PaymentError
                    "Unknown method. Expected pay_in_full | pay_as_you_go | climb_loan")
           | found =>
               let qs := if useCustom env && Js.truthy (CLICKUP_TEAM_ID env)
                         then team_query env else "" in
               r ← fetch w (SetField idToUse (PAYMENT_METHOD (CF env)) qs (sent_value found));
               let j := res_json_or_empty r in
               if negb (ok r)
               then pm_respond 400 (PaymentErrorDetails "clickup_update_failed" (j_text j))
               else pm_respond 200
                      (PaymentOk (method req) (useCustom env) (PAYMENT_METHOD (CF env)))
           end)
    (fun _ => pm_respond 500 (PaymentError "server_error")).

(** A remote API that lists three fields, the first and the last under
    the same id. *)
Definition listed_fields : list FieldDef :=
  [ {| def_id := "cf-class";
       def_options := Some [ {| opt_id := "old-yes"; opt_name := "Yes" |} ] |};
    {| def_id := "cf-notes"; def_options := None |};
    {| def_id := "cf-class";
       def_options := Some [ {| opt_id := "opt-no"; opt_name := "No" |};
                             {| opt_id := "opt-yes"; opt_name := "Yes" |} ] |} ].

Definition lists_fields (_ : list (Call * Outcome)) (c : Call) : Outcome :=
  match c with
  | GetListFields _ =>
      Answers {| status := 200;
                 json := Some {| j_text := "{'fields':[...]}"; j_fields := listed_fields;
                                 j_id := ""; j_custom_id := ""; j_url := "";
                                 j_attachment_url := ""; j_first_url := "" |} |}
  | _ => Rejects "TypeError: fetch failed"
  end.


(** The members of [Object.prototype] in Node and what [JSON.stringify]
    leaves of each as a [value]: nothing for a function, an empty object
    for [__proto__]. *)
Definition object_prototype (name : string) : option string :=
  if bool_decide (name ∈ [ "constructor"; "__defineGetter__"; "__defineSetter__";
                            "hasOwnProperty"; "__lookupGetter__"; "__lookupSetter__";
                            "isPrototypeOf"; "propertyIsEnumerable"; "toString";
                            "valueOf"; "toLocaleString" ])
  then Some ""
  else if String.eqb name "__proto__" then Some "{}"
  else None.

(** A remote API that answers every call with status 200. *)
Definition always_ok (_ : list (Call * Outcome)) (_ : Call) : Outcome :=
  Answers {| status := 200; json := Some created_task |}.

(** No code unit of [s] is a comma. *)
Definition comma_free (s : string) : bool :=
  all_chars (fun c => negb (Ascii.eqb c ",")) s.

(** ** Properties of the string primitives *)

Section StringFacts.

Lemma startsWith_refl s : Js.startsWith s s = true.
Proof.
  induction s as [|c s IH]; simpl; [reflexivity|].
  rewrite Ascii.eqb_refl. exact IH.
Qed.

Lemma startsWith_app_l s a b :
  Js.startsWith s (a ++ b) = true -> Js.startsWith s a = true.
Proof.
  revert s. induction a as [|c a IH]; intros s H; simpl in *; [reflexivity|].
  destruct s as [|d s]; [discriminate|].
  destruct (Ascii.eqb c d); [|discriminate]. apply IH. exact H.
Qed.

Lemma includes_app_l s a b :
  Js.includes s (a ++ b) = true -> Js.includes s a = true.
Proof.
  induction s as [|d s IH]; simpl; intros H.
  - apply orb_true_iff in H as [H|H]; [|discriminate].
    rewrite (startsWith_app_l _ _ _ H). reflexivity.
  - apply orb_true_iff in H as [H|H].
    + rewrite (startsWith_app_l _ _ _ H). reflexivity.
    + rewrite (IH H). apply orb_true_r.
Qed.

Lemma includes_refl s : Js.includes s s = true.
Proof. destruct s; simpl; [reflexivity|]. rewrite Ascii.eqb_refl, startsWith_refl. reflexivity. Qed.

Lemma includes_empty s : Js.includes s "" = true.
Proof. destruct s; reflexivity. Qed.

Lemma app_cons_string c (a b : string) : String c a ++ b = String c (a ++ b).
Proof. reflexivity. Qed.

Lemma app_nil_string (b : string) : "" ++ b = b.
Proof. reflexivity. Qed.

Lemma startsWith_spec s p :
  Js.startsWith s p = true <-> exists rest, s = p ++ rest.
Proof.
  revert s. induction p as [|c p IH]; intros s; simpl.
  - split; [intros _; exists s; reflexivity | reflexivity].
  - destruct s as [|d s].
    + split; [discriminate | intros [rest H]; discriminate].
    + destruct (Ascii.eqb_spec c d) as [->|Hne].
      * rewrite IH. split; intros [rest H]; exists rest;
          rewrite app_cons_string in *; congruence.
      * split; [discriminate |].
        intros [rest H]. rewrite app_cons_string in H. congruence.
Qed.

Lemma includes_spec s sub :
  Js.includes s sub = true <-> exists before rest, s = before ++ sub ++ rest.
Proof.
  induction s as [|d s IH]; simpl.
  - rewrite orb_false_r, startsWith_spec. split.
    + intros [rest H]. exists "", rest. exact H.
    + intros (before & rest & H). destruct before.
      * exists rest. exact H.
      * discriminate.
  - rewrite orb_true_iff, startsWith_spec, IH. split.
    + intros [[rest H] | (before & rest & H)].
      * exists "", rest. exact H.
      * exists (String d before), rest. rewrite app_cons_string. congruence.
    + intros (before & rest & H). destruct before as [|e before].
      * left. exists rest. exact H.
      * right. exists before, rest. rewrite app_cons_string in H. congruence.
Qed.

Lemma app_assoc_string (a b c : string) : (a ++ b) ++ c = a ++ (b ++ c).
Proof.
  induction a as [|x a IH]; [reflexivity|].
  rewrite !app_cons_string, IH. reflexivity.
Qed.

Lemma includes_app_r s a b :
  Js.includes s (a ++ b) = true -> Js.includes s b = true.
Proof.
  rewrite !includes_spec. intros (before & rest & ->).
  exists (before ++ a), rest. rewrite !app_assoc_string. reflexivity.
Qed.

End StringFacts.

(** ** Cohort resolution *)

(** The two exact tests of [resolveCohortOptionId] are covered by its
    substring tests: the result is decided by the substrings alone. *)
Lemma resolveCohortOptionId_by_substring C input :
  resolveCohortOptionId C input =
    let v := Js.toLowerCase (Js.trim input) in
    if Js.includes v "dtca-2502" || Js.includes v "oct" then october C
    else if Js.includes v "dtca-2601" || Js.includes v "jan" then january C
    else None.
Proof.
  unfold resolveCohortOptionId. cbv zeta.
  generalize (Js.toLowerCase (Js.trim input)). intros v.
  destruct (String.eqb_spec v "october") as [->|_]; [reflexivity|].
  destruct (String.eqb_spec v "january") as [->|_]; reflexivity.
Qed.




(** C6.  The cohort resolution maps "DTCA-2502 extra text" to the October
    option id and "unknown" to null; on a server with the cohort field
    configured the endpoint then answers 400 without calling the remote
    API, and with the October id configured it sends that id as the
    field's value. *)
Theorem cohort_endpoint_examples (env : Env) :
  resolveCohortOptionId (COHORT_OPTIONS env) "DTCA-2502 extra text"
    = october (COHORT_OPTIONS env) /\
  resolveCohortOptionId (COHORT_OPTIONS env) "unknown" = None /\
  (forall w req st,
     Js.truthy (COHORT (CF env)) = true ->
     cohort req = "unknown" ->
     cohort_handler w env req st
     = (Returns {| http_status := 400;
                   payload := ErrorMessage
                     "Unknown cohort value; expected 'october' or 'january' (or DTCA-2502/DTCA-2601 label)." |},
        st)) /\
  (forall w req st,
     Js.truthy (COHORT (CF env)) = true ->
     Js.truthy (COHORT_OCT_ID env) = true ->
     cohort req = "DTCA-2502 extra text" ->
     Js.truthy (co_taskId req) = true ->
     exists idToUse qs outcome,
       calls (cohort_handler w env req st).2
       = (calls st ++ [(SetField idToUse (COHORT (CF env)) qs (COHORT_OCT_ID env),
                        outcome)])%list).
Proof.
  split; [reflexivity|]. split; [reflexivity|]. split.
  - intros w req st Hcf Hco.
    unfold cohort_handler, try_catch. rewrite Hco, Hcf. simpl. reflexivity.
  - intros w req st Hcf Hoct Hco Htask.
    unfold cohort_handler, try_catch. rewrite Hco, Hcf. simpl negb.
    cbv iota.
    assert (Hr : resolveCohortOptionId (COHORT_OPTIONS env) "DTCA-2502 extra text"
                 = Some (COHORT_OCT_ID env)).
    { change (october (COHORT_OPTIONS env) = Some (COHORT_OCT_ID env)).
      simpl. unfold env_or_null. rewrite Hoct. reflexivity. }
    rewrite Hr. unfold id_truthy. rewrite Hoct. simpl negb. cbv iota.
    set (idToUse := if useCustom env then _ else _).
    assert (Hid : Js.truthy idToUse = true).
    { subst idToUse. destruct (useCustom env); [|exact Htask].
      unfold Js.or_else. destruct (Js.truthy (co_customTaskId req)) eqn:E; assumption. }
    rewrite Hid. simpl negb. cbv iota.
    exists idToUse. unfold mbind, Handler_bind, fetch, respond, mret, Handler_ret. cbn.
    match goal with
    | |- context [remote w ?h ?c] => destruct (remote w h c) as [e|r]
    end; simpl.
    + eexists _, _. reflexivity.
    + destruct (negb (ok r)); eexists _, _; reflexivity.
Qed.

(** C6 on the sample server. *)
Lemma cohort_endpoint_examples_witness :
  cohort_handler offline_world sample_env
    {| co_taskId := "86a1"; co_customTaskId := ""; cohort := "unknown" |} fresh_state
  = (Returns {| http_status := 400;
                payload := ErrorMessage
                  "Unknown cohort value; expected 'october' or 'january' (or DTCA-2502/DTCA-2601 label)." |},
     fresh_state).
Proof.
  destruct (cohort_endpoint_examples sample_env) as (_ & _ & H & _).
  apply H; reflexivity.
Defined.

(** ** The option resolver *)

Section Resolver.

Variable OPTION_CACHE : OptionCache.
Variable cf : CustomFields.

Lemma truthy_nonempty s : s <> "" -> Js.truthy s = true.
Proof. destruct s; [congruence | reflexivity]. Qed.

(** A field without a cache entry resolves to null. *)
Lemma optionIdFor_uncached fieldId raw :
  OPTION_CACHE !! fieldId = None -> optionIdFor OPTION_CACHE cf fieldId raw = None.
Proof.
  intros H. unfold optionIdFor. rewrite H. simpl.
  destruct (negb (Js.truthy fieldId) || negb (Js.truthy raw)); reflexivity.
Qed.

Lemma find_id_none pred l :
  Forall (fun p => pred p = false) l -> find_id pred l = None.
Proof.
  unfold find_id. induction 1 as [|p l Hp _ IH]; simpl; [reflexivity|].
  rewrite Hp. exact IH.
Qed.

(** When no other option satisfies [pred], [find] is decided by [o]. *)
Lemma find_id_only pred before o after :
  Forall (fun p => pred p = false) (before ++ after) ->
  find_id pred (before ++ o :: after) = if pred o then Some (opt_id o) else None.
Proof.
  unfold find_id. induction before as [|p before IH]; simpl; intros H.
  - destruct (pred o); [reflexivity|]. apply (find_id_none pred after H).
  - inversion H as [|? ? Hp Hrest]; subst. rewrite Hp. apply IH, Hrest.
Qed.

End Resolver.

(** C1 (as amended).  For a non-empty field id and a non-empty raw value,
    [pushDropdownOrText] appends the resolved option id when the field has
    cached options and [optionIdFor] returns a non-empty id, appends
    nothing when the field has cached options and [optionIdFor] returns
    null, and appends the raw value unchanged when the field has no cached
    options.  With an empty field id or an empty raw value it appends
    nothing. *)
Theorem pushDropdownOrText_cases (OPTION_CACHE : OptionCache) (cf : CustomFields)
    (custom_fields : list FieldAssignment) (fieldId raw : string) :
  let after := pushDropdownOrText OPTION_CACHE cf custom_fields fieldId raw in
  (fieldId <> "" -> raw <> "" ->
   (forall id, is_Some (OPTION_CACHE !! fieldId) ->
      optionIdFor OPTION_CACHE cf fieldId raw = Some id -> id <> "" ->
      after = (custom_fields ++ [ {| field_id := fieldId; field_value := id |} ])%list) /\
   (is_Some (OPTION_CACHE !! fieldId) ->
      optionIdFor OPTION_CACHE cf fieldId raw = None -> after = custom_fields) /\
   (OPTION_CACHE !! fieldId = None ->
      after = (custom_fields ++ [ {| field_id := fieldId; field_value := raw |} ])%list)) /\
  (fieldId = "" \/ raw = "" -> after = custom_fields).
Proof.
  cbv zeta. unfold pushDropdownOrText. split.
  - intros Hf Hr.
    rewrite (truthy_nonempty _ Hf), (truthy_nonempty _ Hr). simpl.
    repeat split.
    + intros id _ -> Hid. simpl. rewrite (truthy_nonempty _ Hid). reflexivity.
    + intros Hsome ->. simpl. rewrite bool_decide_eq_true_2 by exact Hsome. reflexivity.
    + intros Hnone. rewrite (optionIdFor_uncached _ _ _ _ Hnone). simpl.
      rewrite bool_decide_eq_false_2; [reflexivity|].
      rewrite Hnone. intros [x Hx]. discriminate.
  - intros [-> | ->]; simpl; [reflexivity|].
    rewrite orb_true_r. reflexivity.
Qed.

(** The amended C1 on a field without cached options: the raw text is
    appended as it is. *)
Lemma pushDropdownOrText_cases_witness :
  pushDropdownOrText cache_yes_no (CF sample_env) [] "cf-notes" "Portland, OR"
  = [ {| field_id := "cf-notes"; field_value := "Portland, OR" |} ].
Proof.
  destruct (pushDropdownOrText_cases cache_yes_no (CF sample_env) [] "cf-notes" "Portland, OR")
    as [H _].
  destruct H as (_ & _ & H); [discriminate | discriminate |].
  apply H. reflexivity.
Defined.

(** C1 as stated fails for an empty raw value: the field has no cached
    options, and nothing is appended. *)
Lemma pushDropdownOrText_empty_raw_not_appended :
  cache_yes_no !! "cf-notes" = None /\
  pushDropdownOrText cache_yes_no (CF sample_env) [] "cf-notes" "" = [] /\
  pushDropdownOrText cache_yes_no (CF sample_env) [] "cf-notes" ""
    <> [ {| field_id := "cf-notes"; field_value := "" |} ].
Proof. split; [reflexivity|]. split; [reflexivity|]. discriminate. Qed.

(** C3.  When the cached options of a field contain an option whose
    normalized name is "yes", [optionIdFor] of the input "yes" returns the
    id of such an option, the first one in the list, whatever the other
    options are; it is the id of [o] itself when [o] is the only option
    with that name. *)
Theorem optionIdFor_yes (OPTION_CACHE : OptionCache) (cf : CustomFields)
    (fieldId : string) (opts : list FieldOption) (o : FieldOption) :
  fieldId <> "" ->
  OPTION_CACHE !! fieldId = Some opts ->
  In o opts ->
  norm (opt_name o) = "yes" ->
  exists o',
    List.find (fun x => String.eqb (norm (opt_name x)) "yes") opts = Some o' /\
    In o' opts /\ norm (opt_name o') = "yes" /\
    optionIdFor OPTION_CACHE cf fieldId "yes" = Some (opt_id o') /\
    ((forall x, In x opts -> norm (opt_name x) = "yes" -> x = o) -> o' = o).
Proof.
  intros Hf Hc Hin Hyes.
  destruct (List.find (fun x => String.eqb (norm (opt_name x)) "yes") opts)
    as [o'|] eqn:Hfind.
  - apply find_some in Hfind as Hfound. destruct Hfound as [Hin' Heq].
    apply String.eqb_eq in Heq.
    exists o'. repeat split; try assumption.
    + unfold optionIdFor. rewrite (truthy_nonempty _ Hf), Hc. simpl negb. cbv iota.
      simpl default.
      destruct opts as [|x opts']; [destruct Hin|].
      change (norm "yes") with "yes". cbv zeta.
      simpl Nat.eqb. cbv iota.
      unfold find_id at 1. rewrite Hfind. reflexivity.
    + intros Huniq. apply Huniq; assumption.
  - exfalso. apply (find_none _ _ Hfind) in Hin.
    rewrite Hyes in Hin. discriminate.
Qed.

(** C3 on a Yes/No dropdown that lists "No" first. *)
Lemma optionIdFor_yes_witness :
  optionIdFor cache_yes_no (CF sample_env) "cf-class" "yes" = Some "opt-yes".
Proof.
  destruct (optionIdFor_yes cache_yes_no (CF sample_env) "cf-class"
              [ {| opt_id := "opt-no"; opt_name := "No" |};
                {| opt_id := "opt-yes"; opt_name := "Yes" |} ]
              {| opt_id := "opt-yes"; opt_name := "Yes" |})
    as (o' & _ & _ & _ & Hres & Hsame).
  - discriminate.
  - reflexivity.
  - right. left. reflexivity.
  - reflexivity.
  - rewrite Hres, Hsame; [reflexivity|].
    intros x [<- | [<- | []]] Hx; [discriminate Hx | reflexivity].
Defined.

(** ** Normalization and the resolver *)

Section UsCitizen.

Variable OPTION_CACHE : OptionCache.
Variable cf : CustomFields.
Variables (before after : list FieldOption) (o : FieldOption).

Hypothesis cached :
  OPTION_CACHE !! WORK_ELIGIBILITY cf = Some (before ++ o :: after)%list.
Hypothesis configured : WORK_ELIGIBILITY cf <> "".
Hypothesis names_us_citizen : Js.includes (norm (opt_name o)) "us citizen" = true.
Hypothesis others : Forall unrelated_to_us_citizen (before ++ after)%list.

Lemma opts_nonempty : Nat.eqb (List.length (before ++ o :: after)%list) 0 = false.
Proof. destruct before; reflexivity. Qed.

Lemma others_fail (pred : FieldOption -> bool) :
  (forall p, unrelated_to_us_citizen p -> pred p = false) ->
  Forall (fun p => pred p = false) (before ++ after)%list.
Proof. intros H. eapply Forall_impl; [exact others | exact H]. Qed.

Lemma not_equal_when_not_included (u on : string) :
  Js.includes u on = false -> String.eqb on u = false.
Proof.
  intros H. destruct (String.eqb_spec on u) as [->|]; [|reflexivity].
  rewrite includes_refl in H. discriminate.
Qed.

(** "us citizen" is found at [o] by the exact or by the substring rule. *)
Lemma resolves_us_citizen :
  optionIdFor OPTION_CACHE cf (WORK_ELIGIBILITY cf) "us citizen" = Some (opt_id o).
Proof.
  unfold optionIdFor. rewrite (truthy_nonempty _ configured), cached.
  simpl negb. cbv iota. simpl default. rewrite opts_nonempty.
  change (norm "us citizen") with "us citizen". cbv zeta.
  rewrite find_id_only; [rewrite find_id_only|].
  - rewrite names_us_citizen, orb_true_r.
    destruct (String.eqb _ _); reflexivity.
  - apply others_fail. intros p (Hus & _ & Hin & _).
    rewrite Hin. simpl.
    destruct (Js.includes (norm (opt_name p)) "us citizen") eqn:E; [|reflexivity].
    apply (includes_app_l _ "us" " citizen") in E. congruence.
  - apply others_fail. intros p (_ & _ & Hin & _).
    apply not_equal_when_not_included, Hin.
Qed.

(** "U.S. Citizen" normalizes to "u s citizen": it is found at [o] by
    the exact or the substring rule, or else by the work-eligibility
    rule, whose pattern accepts "u s" on the input side. *)
Lemma resolves_dotted_us_citizen :
  optionIdFor OPTION_CACHE cf (WORK_ELIGIBILITY cf) "U.S. Citizen" = Some (opt_id o).
Proof.
  unfold optionIdFor. rewrite (truthy_nonempty _ configured), cached.
  simpl negb. cbv iota. simpl default. rewrite opts_nonempty.
  change (norm "U.S. Citizen") with "u s citizen". cbv zeta.
  rewrite String.eqb_refl.
  change (String.eqb "u s citizen" "yes" || String.eqb "u s citizen" "y") with false.
  change (String.eqb "u s citizen" "no" || String.eqb "u s citizen" "n") with false.
  change (WorkEligibility.us_regex_test "u s citizen") with true.
  cbn [orb]. cbv iota.
  rewrite find_id_only; [rewrite find_id_only; [rewrite find_id_only|]|].
  - assert (Hus : Js.includes (norm (opt_name o)) "us" = true)
      by apply (includes_app_l _ "us" " citizen"), names_us_citizen.
    assert (Hcit : Js.includes (norm (opt_name o)) "citizen" = true)
      by apply (includes_app_r _ "us " "citizen"), names_us_citizen.
    rewrite Hus, Hcit. simpl.
    destruct (String.eqb _ _); [reflexivity|].
    destruct (_ || _); reflexivity.
  - apply others_fail. intros p (Hus & _). rewrite Hus. reflexivity.
  - apply others_fail. intros p (_ & Hdot & _ & Hin). rewrite Hin, Hdot. reflexivity.
  - apply others_fail. intros p (_ & _ & _ & Hin).
    apply not_equal_when_not_included, Hin.
Qed.

End UsCitizen.

(** C7 (as amended).  [optionIdFor] reads a non-empty raw input through
    its normalized form only: two non-empty inputs that are equal after
    lowercasing, expanding the ampersand token, collapsing the runs of
    other characters and trimming resolve to the same result.
    "U.S. Citizen" and "us citizen" normalize to different strings; for
    the work-eligibility field they resolve to the same option id when one
    option's normalized name contains "us citizen" and no other option is
    related to either input. *)
Theorem optionIdFor_by_normal_form (OPTION_CACHE : OptionCache) (cf : CustomFields) :
  (forall fieldId raw1 raw2,
     raw1 <> "" -> raw2 <> "" -> norm raw1 = norm raw2 ->
     optionIdFor OPTION_CACHE cf fieldId raw1 = optionIdFor OPTION_CACHE cf fieldId raw2) /\
  (forall before o after,
     OPTION_CACHE !! WORK_ELIGIBILITY cf = Some (before ++ o :: after)%list ->
     WORK_ELIGIBILITY cf <> "" ->
     Js.includes (norm (opt_name o)) "us citizen" = true ->
     Forall unrelated_to_us_citizen (before ++ after)%list ->
     optionIdFor OPTION_CACHE cf (WORK_ELIGIBILITY cf) "U.S. Citizen" = Some (opt_id o) /\
     optionIdFor OPTION_CACHE cf (WORK_ELIGIBILITY cf) "us citizen" = Some (opt_id o)).
Proof.
  split.
  - intros fieldId raw1 raw2 H1 H2 Hn. unfold optionIdFor.
    rewrite (truthy_nonempty _ H1), (truthy_nonempty _ H2), Hn. reflexivity.
  - intros before o after Hc Hwe Ho Hothers. split.
    + eapply resolves_dotted_us_citizen; eassumption.
    + eapply resolves_us_citizen; eassumption.
Qed.

(** The amended C7 on the dropdown whose first option is written
    "US Citizen or Permanent Resident". *)
Lemma optionIdFor_by_normal_form_witness :
  optionIdFor cache_us (CF sample_env) we_field "US  CITIZEN!"
  = optionIdFor cache_us (CF sample_env) we_field "us citizen" /\
  optionIdFor cache_us (CF sample_env) we_field "U.S. Citizen" = Some "opt-us" /\
  optionIdFor cache_us (CF sample_env) we_field "us citizen" = Some "opt-us".
Proof.
  destruct (optionIdFor_by_normal_form cache_us (CF sample_env)) as [Hsame Hus].
  split.
  - apply Hsame; [discriminate | discriminate | reflexivity].
  - apply (Hus [] {| opt_id := "opt-us"; opt_name := "US Citizen or Permanent Resident" |}
               [ {| opt_id := "opt-ca"; opt_name := "Canadian Citizen or Permanent Resident" |};
                 {| opt_id := "opt-none"; opt_name := "None of the above" |} ]).
    + reflexivity.
    + discriminate.
    + reflexivity.
    + repeat constructor.
Defined.

(** C7 as stated fails twice.  The empty input and "-" have the same
    normal form, yet the first resolves to null and the second to the
    first option; and where the option is written "U.S. Citizen ...",
    "U.S. Citizen" resolves to it while "us citizen" resolves to null. *)
Lemma optionIdFor_not_by_normal_form :
  (norm "" = norm "-" /\
   optionIdFor cache_us (CF sample_env) we_field "" = None /\
   optionIdFor cache_us (CF sample_env) we_field "-" = Some "opt-us") /\
  (optionIdFor cache_dotted (CF sample_env) we_field "U.S. Citizen" = Some "opt-us" /\
   optionIdFor cache_dotted (CF sample_env) we_field "us citizen" = None).
Proof. repeat split. Qed.

(** ** Warming the option cache *)

Lemma cache_field_options options :
  List.map (fun o => {| opt_id := opt_id o; opt_name := opt_name o |}) options = options.
Proof.
  induction options as [|[i n] options IH]; simpl; [reflexivity|].
  rewrite IH. reflexivity.
Qed.

(** An entry of the cache built from a field list comes from the cache
    it started from or from a field of the list with an option array. *)
Lemma foldl_cache_field_lookup fields (c : OptionCache) fieldId options :
  foldl cache_field c fields !! fieldId = Some options ->
  c !! fieldId = Some options \/
  exists f, In f fields /\ def_id f = fieldId /\ def_options f = Some options.
Proof.
  revert c. induction fields as [|f fields IH]; simpl; intros c H; [left; exact H|].
  apply IH in H as [H | (g & Hin & Hid & Hopt)].
  - unfold cache_field in H. destruct (def_options f) as [o|] eqn:Ho; [|left; exact H].
    rewrite cache_field_options in H.
    destruct (decide (def_id f = fieldId)) as [Heq|Hne].
    + rewrite <- Heq, lookup_insert_eq in H. right. exists f.
      split; [left; reflexivity|]. split; [exact Heq | congruence].
    + rewrite lookup_insert_ne in H by exact Hne. left. exact H.
  - right. exists g. split; [right; exact Hin|]. split; assumption.
Qed.

(** One refresh, run: it returns, whatever the fetch does. *)
Lemma warmDropdowns_run w env st :
  let call := GetListFields (CLICKUP_LIST_ID env) in
  let outcome := remote w (calls st) call in
  warmDropdowns w env st
  = (Returns tt,
     {| cache := warmed_cache outcome;
        calls := (calls st ++ [(call, outcome)])%list;
        tmp := tmp st |}).
Proof.
  cbv zeta. unfold warmDropdowns, try_catch, mbind, Handler_bind, fetch, set_cache. cbn.
  destruct (remote w (calls st) _) as [e|r]; cbn; [reflexivity|].
  unfold res_json. destruct (json r); reflexivity.
Qed.

Lemma new_calls_none st : new_calls st st = [].
Proof. unfold new_calls. apply drop_all. Qed.

Lemma new_calls_app st st' added :
  calls st' = (calls st ++ added)%list -> new_calls st st' = added.
Proof. intros H. unfold new_calls. rewrite H. apply drop_app_length. Qed.

(** C8.  A refresh never raises and makes a single fetch.  The cache it
    leaves does not depend on the cache before it: it holds an entry for a
    field only if the fetch answered with a body that parses and lists
    that field with an option array, and it is empty if the fetch
    failed. *)
Theorem warmDropdowns_cache (w : World) (env : Env) (st : State) :
  let call := GetListFields (CLICKUP_LIST_ID env) in
  let outcome := remote w (calls st) call in
  exists st',
    warmDropdowns w env st = (Returns tt, st') /\
    new_calls st st' = [(call, outcome)] /\
    cache st' = warmed_cache outcome /\
    (forall fieldId options,
       cache st' !! fieldId = Some options ->
       exists r j f,
         outcome = Answers r /\ json r = Some j /\ In f (j_fields j) /\
         def_id f = fieldId /\ def_options f = Some options) /\
    (fetch_failed outcome -> cache st' = ∅).
Proof.
  cbv zeta. eexists. split; [apply warmDropdowns_run|]. cbn.
  split; [apply new_calls_app; reflexivity|]. split; [reflexivity|]. split.
  - intros fieldId options H.
    destruct (remote w (calls st) _) as [e|r]; cbn in H; [rewrite lookup_empty in H; discriminate|].
    destruct (json r) as [j|] eqn:Hj; [|rewrite lookup_empty in H; discriminate].
    apply foldl_cache_field_lookup in H as [H | (f & Hin & Hid & Hopt)].
    + rewrite lookup_empty in H. discriminate.
    + exists r, j, f. repeat split; assumption.
  - destruct (remote w (calls st) _) as [e|r]; cbn; [reflexivity|].
    intros ->. reflexivity.
Qed.

(** C8 on a process with a stale cache whose remote API cannot be
    reached: the refresh returns and leaves the cache empty. *)
Lemma warmDropdowns_cache_witness :
  exists st',
    warmDropdowns offline_world sample_env stale_state = (Returns tt, st') /\
    cache st' = ∅.
Proof.
  destruct (warmDropdowns_cache offline_world sample_env stale_state)
    as (st' & Hrun & _ & _ & _ & Hfailed).
  exists st'. split; [exact Hrun|]. apply Hfailed. exact I.
Defined.

(** ** The creation endpoint *)

(** C2 (as amended).  A creation request without a video is answered with
    a validation error that names the video field; while handling it the
    server makes one call to the remote API, the field-list fetch of the
    cache refresh, and no other: no task is created, nothing is uploaded,
    no field is set. *)
Theorem apply_without_video (w : World) (env : Env) (req : ApplyRequest) (st : State) :
  has_video req = false ->
  exists st',
    apply_handler w env req st
    = (Returns {| http_status := 200;
                  payload := ValidationError "videoFile"
                               "Please upload a short intro video (required)." |},
       st') /\
    new_calls st st'
    = [ (GetListFields (CLICKUP_LIST_ID env),
         remote w (calls st) (GetListFields (CLICKUP_LIST_ID env))) ].
Proof.
  intros Hvideo. eexists.
  unfold apply_handler, try_catch, mbind, Handler_bind.
  rewrite warmDropdowns_run, Hvideo. cbn. split; [reflexivity|].
  apply new_calls_app. reflexivity.
Qed.

(** The amended C2 on a request without a file. *)
Lemma apply_without_video_witness :
  exists st',
    apply_handler offline_world sample_env request_without_video fresh_state
    = (Returns {| http_status := 200;
                  payload := ValidationError "videoFile"
                               "Please upload a short intro video (required)." |},
       st') /\
    new_calls fresh_state st'
    = [ (GetListFields "901", Rejects "TypeError: fetch failed") ].
Proof.
  destruct (apply_without_video offline_world sample_env request_without_video fresh_state)
    as (st' & Hrun & Hcalls); [reflexivity|].
  exists st'. split; [exact Hrun | exact Hcalls].
Defined.

(** C2 as stated fails: handling a request without a video, the server
    has called the remote API, for the field list. *)
Lemma apply_without_video_calls_remote :
  has_video request_without_video = false /\
  calls (apply_handler offline_world sample_env request_without_video fresh_state).2
  = [ (GetListFields "901", Rejects "TypeError: fetch failed") ] /\
  calls (apply_handler offline_world sample_env request_without_video fresh_state).2
  <> calls fresh_state.
Proof. split; [reflexivity|]. split; [reflexivity|]. discriminate. Qed.

(** The document never takes the name of the signature image. *)
Lemma pdf_name_not_sig (rest : string) : "DCA-Job-Guarantee-" ++ rest <> "sig.png".
Proof. cbv [String.append]. discriminate. Qed.

Section TemporaryDirectory.

Variables (rest : string) (P B : FileData).

Local Abbreviation pdf := ("DCA-Job-Guarantee-" ++ rest).

Lemma lookup_sig_beside_pdf (E : gmap string FileData) :
  <[ pdf := P ]> E !! "sig.png" = E !! "sig.png".
Proof. apply lookup_insert_ne, pdf_name_not_sig. Qed.

Lemma lookup_pdf_without_sig (E : gmap string FileData) :
  delete "sig.png" E !! pdf = E !! pdf.
Proof. apply lookup_delete_ne. intros H. symmetry in H. exact (pdf_name_not_sig _ H). Qed.

(** Once both entries are unlinked, the directory is empty. *)
Lemma directory_emptied :
  delete pdf (delete "sig.png" (<[ pdf := P ]> (<[ "sig.png" := B ]> ∅)))
  = (∅ : gmap string FileData).
Proof.
  rewrite delete_delete, delete_insert_eq, delete_insert_ne by apply pdf_name_not_sig.
  rewrite delete_insert_eq, !delete_empty. reflexivity.
Qed.

Lemma directory_emptied_decided :
  bool_decide
    (delete pdf (delete "sig.png" (<[ pdf := P ]> (<[ "sig.png" := B ]> ∅)))
     = (∅ : gmap string FileData)) = true.
Proof. apply bool_decide_eq_true_2, directory_emptied. Qed.

End TemporaryDirectory.

Lemma pair_inv {A B : Type} (a c : A) (b d : B) : (a, b) = (c, d) -> a = c /\ b = d.
Proof. intros H. injection H as -> ->. split; reflexivity. Qed.

(** Splitting the exchanges a run added, one by one. *)
Ltac split_exchanges :=
  repeat match goal with
    | H : _ ∈ new_calls ?st ?st |- _ => rewrite new_calls_none in H
    | H : _ ∈ new_calls ?st {| calls := calls ?st |} |- _ =>
        unfold new_calls in H; cbn [calls] in H; rewrite drop_all in H
    | H : _ ∈ new_calls _ _ |- _ =>
        unfold new_calls in H; cbn [calls] in H;
        rewrite <- ?app_assoc in H; rewrite drop_app_length in H; cbn [app] in H
    | H : _ ∈ [] |- _ => apply elem_of_nil in H; destruct H
    | H : _ ∈ _ :: _ |- _ => apply elem_of_cons in H as [H | H]
    | H : (_, _) = (_, _) |- _ =>
        let Hcall := fresh "Hcall" in
        let Hout := fresh "Hout" in
        apply pair_inv in H as [Hcall Hout];
        first [ discriminate Hcall
              | discriminate Hout
              | inversion Hcall; inversion Hout; clear Hcall Hout; subst ]
    end.

(** The outcome of a run, once it is known. *)
Ltac read_run H := apply pair_inv in H as [<- <-].

(** Running a handler in a hypothesis: the monad is unfolded, and each
    test the run meets is decided both ways. *)
Ltac unfold_handler H :=
  unfold respond, res_json in H;
  unfold try_catch, mbind, Handler_bind, mret, Handler_ret, mthrow, Handler_throw,
    fetch, get_cache, set_cache, get_tmp, set_tmp in H;
  cbn beta iota zeta in H.

Ltac step_run H :=
  cbn beta iota zeta delta [negb andb orb cache calls tmp option_bind Js.truthy] in H;
  repeat (progress rewrite ?lookup_insert_eq, ?lookup_sig_beside_pdf,
            ?lookup_pdf_without_sig, ?directory_emptied_decided in H;
          cbn beta iota zeta delta [negb andb orb cache calls tmp option_bind Js.truthy] in H).

(** The test on which the evaluation of a term waits. *)
Ltac blocker t :=
  lazymatch t with
  | match ?x with _ => _ end => blocker x
  | negb ?x => blocker x
  | andb ?x _ => blocker x
  | orb ?x _ => blocker x
  | option_bind _ _ _ ?x => blocker x
  | ?f ?a =>
      lazymatch f with
      | match _ with _ => _ end => blocker f
      | _ => t
      end
  | _ => t
  end.

Ltac decide_run H :=
  step_run H;
  repeat (
    lazymatch type of H with
    | (_, _) = _ => fail
    | ?run = _ => let b := blocker run in destruct b eqn:?
    end;
    step_run H).



(** ** The guarantee-signature endpoint *)

(** C4 fails on the code.  Whenever the run of the signature handler shows
    an attachment upload that threw, the handler answers 500 and the
    temporary directory it created is still there, holding the signature
    image and the document that was to be uploaded. *)
Theorem guarantee_sign_leaks_when_upload_throws (w : World) (env : Env)
    (req : SignRequest) (st st' : State) (res : Result HttpResponse)
    (t q fn m e : string) (c : FileData) :
  guarantee_sign_handler w env req st = (res, st') ->
  (UploadAttachment t q fn m c, Rejects e) ∈ new_calls st st' ->
  res = Returns {| http_status := 500; payload := SignFailed "server_error" |} /\
  tmp st !! mkdtemp w = None /\
  exists entries,
    tmp st' !! mkdtemp w = Some entries /\
    entries !! "sig.png"
      = Some (Bytes (base64_decode w (split_comma_1 (signaturePng req)))) /\
    entries !! fn = Some c.
Proof.
  intros Hrun Hin.
  unfold guarantee_sign_handler, resolveTaskId, mkdtempSync, render_pdf, readFileSync,
    ignore_errors, unlinkSync, rmdirSync, write_file in Hrun.
  unfold_handler Hrun. decide_run Hrun.
  all: read_run Hrun.
  all: split_exchanges.
  all: split; [reflexivity|]; split; [reflexivity|].
  all: eexists; cbn [tmp]; split; [apply lookup_insert_eq|].
  all: split; [|apply lookup_insert_eq].
  all: rewrite lookup_insert_ne by apply pdf_name_not_sig.
  all: apply lookup_insert_eq.
Qed.

(** The sibling path: whenever the run shows an attachment upload that
    was answered, with whatever status, the handler answers 200 and the
    temporary directory and its two files are gone. *)
Lemma guarantee_sign_cleans_up_when_upload_answers (w : World) (env : Env)
    (req : SignRequest) (st st' : State) (res : Result HttpResponse)
    (t q fn m : string) (c : FileData) (up : Response) :
  guarantee_sign_handler w env req st = (res, st') ->
  (UploadAttachment t q fn m c, Answers up) ∈ new_calls st st' ->
  res = Returns {| http_status := 200;
                   payload := SignOk (j_text (res_json_or_empty up)) |} /\
  tmp st' = tmp st.
Proof.
  intros Hrun Hin.
  unfold guarantee_sign_handler, resolveTaskId, mkdtempSync, render_pdf, readFileSync,
    ignore_errors, unlinkSync, rmdirSync, write_file in Hrun.
  unfold_handler Hrun. decide_run Hrun.
  all: read_run Hrun.
  all: split_exchanges.
  all: split; [reflexivity|].
  all: cbn [tmp]; rewrite !delete_insert_eq; apply delete_id; assumption.
Qed.

(** The failing input of C4: the task exists, the signature decodes, the
    document is rendered, and the attachment endpoint cannot be reached.
    The handler answers 500 and leaves the directory with both files. *)
Lemma guarantee_sign_leaks_when_upload_throws_witness :
  let run := guarantee_sign_handler (world_with upload_unreachable) sample_env
               sign_request fresh_state in
  run.1 = Returns {| http_status := 500; payload := SignFailed "server_error" |} /\
  tmp fresh_state !! "/tmp/dtca-a1b2c3" = None /\
  exists entries,
    tmp run.2 !! "/tmp/dtca-a1b2c3" = Some entries /\
    entries !! "sig.png" = Some (Bytes "iVBORw0KGgo=") /\
    is_Some (entries !! "DCA-Job-Guarantee-Ada Byron-1759233600000.pdf").
Proof.
  intros run.
  assert (Hcalls : exists c,
            new_calls fresh_state run.2
            = [ (UploadAttachment "86a1b2c3" ""
                   "DCA-Job-Guarantee-Ada Byron-1759233600000.pdf" "application/pdf" c,
                 Rejects "TypeError: fetch failed") ]).
  { eexists. vm_compute. reflexivity. }
  destruct Hcalls as [c Hcalls].
  destruct (guarantee_sign_leaks_when_upload_throws (world_with upload_unreachable)
              sample_env sign_request fresh_state run.2 run.1
              "86a1b2c3" "" "DCA-Job-Guarantee-Ada Byron-1759233600000.pdf"
              "application/pdf" "TypeError: fetch failed" c)
    as (Hres & Hbefore & entries & Hdir & Hsig & Hpdf).
  - apply surjective_pairing.
  - rewrite Hcalls. apply list_elem_of_here.
  - split; [exact Hres|]. split; [exact Hbefore|].
    exists entries. split; [exact Hdir|]. split; [exact Hsig|].
    exists c. exact Hpdf.
Defined.

(** On the same request, an attachment endpoint that answers, here with
    status 500, has the handler answer 200 and remove what it created. *)
Example guarantee_sign_cleans_up_on_status_500 :
  let run := guarantee_sign_handler (world_with upload_500) sample_env
               sign_request fresh_state in
  run.1 = Returns {| http_status := 200; payload := SignOk "{}" |} /\
  tmp run.2 = ∅.
Proof. cbv zeta. split; vm_compute; reflexivity. Qed.

Lemma write_file_run dir name d st entries :
  tmp st !! dir = Some entries ->
  write_file dir name d st
  = (Returns tt,
     {| cache := cache st; calls := calls st;
        tmp := <[ dir := <[ name := d ]> entries ]> (tmp st) |}).
Proof.
  intros H. unfold write_file, mbind, Handler_bind, get_tmp, set_tmp.
  rewrite H. reflexivity.
Qed.

(** What the handler's part of the rendering guarantees: when the
    signature bytes cannot be placed, the drawing calls for the terms, the
    signer's name and the date are made all the same and the document is
    ended, and when the stream finishes it is written next to the
    signature image.  What PDFKit emits for these calls is outside this
    development. *)
Lemma render_pdf_without_image (w : World) (req : SignRequest)
    (tmpDir fileName sigBuf : string) (st : State) (entries : gmap string FileData) :
  image_parses w sigBuf = false ->
  stream_finishes w = true ->
  tmp st !! tmpDir = Some entries ->
  exists doc st',
    render_pdf w req tmpDir fileName sigBuf st = (Returns tt, st') /\
    (tmp st' !! tmpDir) ≫= (fun dir => dir !! fileName) = Some (Pdf doc) /\
    doc = (page_one w req ++ after_image w req)%list /\
    In (Text (termsText req)) doc /\
    In (Text ("Signed by: " ++ Js.or_else (sg_fullName req) "N/A")) doc /\
    In (Text ("Name: " ++ sg_fullName req)) doc /\
    In (Text ("Date: " ++ (if Js.truthy (signedAt req) then to_locale w (signedAt req)
                           else now_locale w))) doc /\
    List.last doc MoveDown = End.
Proof.
  intros Himg Hstream Hdir.
  unfold render_pdf, place_image, mbind at 1, Handler_bind at 1.
  rewrite (write_file_run _ _ _ _ _ Hdir), Himg, Hstream.
  erewrite write_file_run by apply lookup_insert_eq.
  eexists _, _. split; [reflexivity|]. cbn [tmp].
  rewrite lookup_insert_eq. cbn. rewrite lookup_insert_eq.
  split; [reflexivity|]. split; [reflexivity|].
  cbn. intuition.
Qed.

(** The other exit that skips the cleanup: when the write stream reports
    an error, the handler answers 500 and the directory stays, holding the
    signature image. *)
Lemma guarantee_sign_leaks_when_stream_fails (w : World) (env : Env)
    (req : SignRequest) (st st' : State) (res : Result HttpResponse) :
  guarantee_sign_handler w env req st = (res, st') ->
  Js.truthy (sg_taskId req) = true ->
  Js.truthy (split_comma_1 (signaturePng req)) = true ->
  tmp st !! mkdtemp w = None ->
  stream_finishes w = false ->
  res = Returns {| http_status := 500; payload := SignFailed "server_error" |} /\
  exists entries,
    tmp st' !! mkdtemp w = Some entries /\
    entries !! "sig.png"
      = Some (Bytes (base64_decode w (split_comma_1 (signaturePng req)))).
Proof.
  intros Hrun Htask Hsig Hfresh Hstream.
  unfold guarantee_sign_handler, resolveTaskId, mkdtempSync, render_pdf, readFileSync,
    ignore_errors, unlinkSync, rmdirSync, write_file in Hrun.
  unfold_handler Hrun. decide_run Hrun.
  all: try congruence.
  read_run Hrun. split; [reflexivity|].
  eexists. cbn [tmp]. split; apply lookup_insert_eq.
Qed.

(** * Further properties of the server *)

(** ** Further properties of the string primitives *)

Ltac each_ascii c :=
  destruct c as [[] [] [] [] [] [] [] []]; try reflexivity; try discriminate.

Lemma lower_char_alnum c : Js.is_alnum c = true -> Js.lower_char c = c.
Proof. each_ascii c. Qed.

Lemma alnum_not_space c : Js.is_alnum c = true -> Js.is_js_space c = false.
Proof. each_ascii c. Qed.

Lemma alnum_not_amp c : Js.is_alnum c = true -> Ascii.eqb "&" c = false.
Proof. each_ascii c. Qed.

Lemma lower_char_space c : Js.is_js_space (Js.lower_char c) = Js.is_js_space c.
Proof. each_ascii c. Qed.

Lemma lower_char_idem c : Js.lower_char (Js.lower_char c) = Js.lower_char c.
Proof. each_ascii c. Qed.

Lemma toLowerCase_idem s : Js.toLowerCase (Js.toLowerCase s) = Js.toLowerCase s.
Proof. induction s as [|c s IH]; simpl; [reflexivity|]. rewrite lower_char_idem, IH. reflexivity. Qed.

(** *** Reversal *)

Lemma rev_app_app (a b c : string) : String.rev_app a b ++ c = String.rev_app a (b ++ c).
Proof.
  revert b. induction a as [|x a IH]; intros b; simpl; [reflexivity|].
  rewrite IH. reflexivity.
Qed.

Lemma rev_cons x (a : string) : String.rev (String x a) = String.rev a ++ String x "".
Proof. unfold String.rev. simpl. rewrite rev_app_app. reflexivity. Qed.

Lemma app_empty_r (a : string) : a ++ "" = a.
Proof. induction a as [|x a IH]; [reflexivity|]. rewrite app_cons_string, IH. reflexivity. Qed.

Lemma rev_app_distr (a b : string) : String.rev (a ++ b) = String.rev b ++ String.rev a.
Proof.
  induction a as [|x a IH].
  - rewrite app_nil_string. symmetry. apply app_empty_r.
  - rewrite app_cons_string, !rev_cons, IH, app_assoc_string. reflexivity.
Qed.

Lemma rev_involutive (a : string) : String.rev (String.rev a) = a.
Proof.
  induction a as [|x a IH]; [reflexivity|].
  rewrite rev_cons, rev_app_distr, IH. reflexivity.
Qed.

Lemma toLowerCase_app (a b : string) :
  Js.toLowerCase (a ++ b) = Js.toLowerCase a ++ Js.toLowerCase b.
Proof.
  induction a as [|x a IH]; [reflexivity|].
  rewrite app_cons_string. simpl. rewrite IH. reflexivity.
Qed.

Lemma toLowerCase_rev (a : string) :
  Js.toLowerCase (String.rev a) = String.rev (Js.toLowerCase a).
Proof.
  induction a as [|x a IH]; [reflexivity|].
  simpl Js.toLowerCase at 2. rewrite !rev_cons, toLowerCase_app, IH. reflexivity.
Qed.

(** *** Trimming *)

Lemma trimStart_clean s : starts_with_space (Js.trimStart s) = false.
Proof.
  induction s as [|c s IH]; simpl; [reflexivity|].
  destruct (Js.is_js_space c) eqn:E; [exact IH | simpl; exact E].
Qed.

Lemma trimStart_id s : starts_with_space s = false -> Js.trimStart s = s.
Proof. destruct s as [|c s]; simpl; [reflexivity|]. intros ->. reflexivity. Qed.

(** What [trimStart] removes is white space. *)
Lemma trimStart_split s :
  exists spaces, s = spaces ++ Js.trimStart s /\ all_chars Js.is_js_space spaces = true.
Proof.
  induction s as [|c s (spaces & Hs & Hall)]; simpl.
  - exists "". split; reflexivity.
  - destruct (Js.is_js_space c) eqn:E.
    + exists (String c spaces). rewrite app_cons_string, <- Hs. simpl. rewrite E, Hall.
      split; reflexivity.
    + exists "". split; reflexivity.
Qed.

Lemma trimEnd_id s : starts_with_space (String.rev s) = false -> Js.trimEnd s = s.
Proof. intros H. unfold Js.trimEnd. rewrite (trimStart_id _ H). apply rev_involutive. Qed.

Lemma trimEnd_clean_end s : starts_with_space (String.rev (Js.trimEnd s)) = false.
Proof. unfold Js.trimEnd. rewrite rev_involutive. apply trimStart_clean. Qed.

(** What [trimEnd] keeps is a prefix. *)
Lemma trimEnd_split s : exists spaces, s = Js.trimEnd s ++ spaces.
Proof.
  destruct (trimStart_split (String.rev s)) as (spaces & Hs & _).
  exists (String.rev spaces). unfold Js.trimEnd.
  rewrite <- rev_app_distr, <- Hs, rev_involutive. reflexivity.
Qed.

Lemma starts_with_space_prefix (a b : string) :
  starts_with_space (a ++ b) = false -> starts_with_space a = false.
Proof. destruct a as [|x a]; [reflexivity|]. rewrite app_cons_string. simpl. tauto. Qed.

Lemma trimEnd_clean_start s :
  starts_with_space s = false -> starts_with_space (Js.trimEnd s) = false.
Proof.
  intros H. destruct (trimEnd_split s) as [spaces Hs].
  rewrite Hs in H. exact (starts_with_space_prefix _ _ H).
Qed.

Lemma trim_no_edge_space s : no_edge_space (Js.trim s).
Proof.
  unfold Js.trim. split.
  - apply trimEnd_clean_start, trimStart_clean.
  - apply trimEnd_clean_end.
Qed.

Lemma trim_id s : no_edge_space s -> Js.trim s = s.
Proof. intros [Hs He]. unfold Js.trim. rewrite (trimStart_id _ Hs). apply trimEnd_id, He. Qed.

Lemma trim_idem s : Js.trim (Js.trim s) = Js.trim s.
Proof. apply trim_id, trim_no_edge_space. Qed.

Lemma trimStart_toLowerCase s :
  Js.trimStart (Js.toLowerCase s) = Js.toLowerCase (Js.trimStart s).
Proof.
  induction s as [|c s IH]; simpl; [reflexivity|].
  rewrite lower_char_space. destruct (Js.is_js_space c); [exact IH | reflexivity].
Qed.

Lemma trim_toLowerCase s : Js.trim (Js.toLowerCase s) = Js.toLowerCase (Js.trim s).
Proof.
  unfold Js.trim, Js.trimEnd.
  rewrite trimStart_toLowerCase, <- toLowerCase_rev, trimStart_toLowerCase, toLowerCase_rev.
  reflexivity.
Qed.

(** *** The normal form of [norm] *)

Lemma collapsed_weaken b s : collapsed b s = true -> collapsed false s = true.
Proof.
  destruct s as [|c s]; simpl; [reflexivity|].
  destruct (Js.is_alnum c); [tauto|].
  destruct b; simpl; [rewrite andb_false_r; discriminate | tauto].
Qed.

Lemma collapse_from_collapsed b s : collapsed b (Js.collapse_from b s) = true.
Proof.
  revert b. induction s as [|c s IH]; intros b; simpl; [reflexivity|].
  destruct (Js.is_alnum c) eqn:E.
  - simpl. rewrite E. apply IH.
  - destruct b; [apply IH|]. simpl. apply IH.
Qed.

Lemma collapse_from_id b s : collapsed b s = true -> Js.collapse_from b s = s.
Proof.
  revert b. induction s as [|c s IH]; intros b; simpl; [reflexivity|].
  destruct (Js.is_alnum c).
  - intros H. rewrite (IH _ H). reflexivity.
  - destruct b; simpl; [rewrite andb_false_r; discriminate|].
    destruct (Ascii.eqb_spec c " ") as [->|]; [|discriminate].
    simpl. intros H. rewrite (IH _ H). reflexivity.
Qed.

Lemma collapsed_prefix b (s rest : string) :
  collapsed b (s ++ rest) = true -> collapsed b s = true.
Proof.
  revert b. induction s as [|c s IH]; intros b; [reflexivity|].
  rewrite app_cons_string. simpl.
  destruct (Js.is_alnum c); [apply IH|].
  intros H. apply andb_true_iff in H as [H1 H2]. rewrite H1. apply (IH _ H2).
Qed.

Lemma collapsed_trimStart s : collapsed false s = true -> collapsed false (Js.trimStart s) = true.
Proof.
  induction s as [|c s IH]; simpl; [reflexivity|].
  destruct (Js.is_js_space c) eqn:Esp; [|simpl; tauto].
  destruct (Js.is_alnum c) eqn:Eal.
  - rewrite (alnum_not_space _ Eal) in Esp. discriminate.
  - intros H. apply andb_true_iff in H as [_ H]. apply IH, (collapsed_weaken _ _ H).
Qed.

Lemma collapsed_trim s : collapsed false s = true -> collapsed false (Js.trim s) = true.
Proof.
  intros H. unfold Js.trim.
  destruct (trimEnd_split (Js.trimStart s)) as [spaces Hs].
  apply collapsed_trimStart in H. rewrite Hs in H. exact (collapsed_prefix _ _ _ H).
Qed.

Lemma collapsed_chars b s :
  collapsed b s = true ->
  all_chars (fun c => Js.is_alnum c || Ascii.eqb c " ") s = true.
Proof.
  revert b. induction s as [|c s IH]; intros b; simpl; [reflexivity|].
  destruct (Js.is_alnum c); simpl; [apply IH|].
  intros H. apply andb_true_iff in H as [H1 H2]. apply andb_true_iff in H1 as [-> _].
  apply (IH _ H2).
Qed.

Lemma collapsed_no_double_space b s :
  collapsed b s = true -> Js.includes s "  " = false.
Proof.
  revert b. induction s as [|c s IH]; intros b; [reflexivity|].
  cbn [Js.includes Js.startsWith collapsed].
  destruct (Js.is_alnum c) eqn:E.
  - intros H. rewrite (IH _ H), orb_false_r.
    destruct (Ascii.eqb_spec " " c) as [<-|]; [discriminate E | reflexivity].
  - intros H. apply andb_true_iff in H as [H1 H2]. rewrite (IH _ H2), orb_false_r.
    destruct (Ascii.eqb " " c); [|reflexivity].
    destruct s as [|d s]; [reflexivity|].
    cbn [collapsed] in H2. cbn [Js.startsWith].
    destruct (Ascii.eqb_spec " " d) as [<-|]; [|reflexivity].
    discriminate H2.
Qed.

Lemma collapsed_toLowerCase b s : collapsed b s = true -> Js.toLowerCase s = s.
Proof.
  revert b. induction s as [|c s IH]; intros b; simpl; [reflexivity|].
  destruct (Js.is_alnum c) eqn:E.
  - intros H. rewrite (lower_char_alnum _ E), (IH _ H). reflexivity.
  - intros H. apply andb_true_iff in H as [H1 H2]. apply andb_true_iff in H1 as [H1 _].
    apply Ascii.eqb_eq in H1 as ->. rewrite (IH _ H2). reflexivity.
Qed.

Lemma collapsed_replace_amp b s : collapsed b s = true -> Js.replace_amp_from 0 s = s.
Proof.
  revert b. induction s as [|c s IH]; intros b; [reflexivity|].
  cbn [Js.replace_amp_from collapsed Js.startsWith].
  destruct (Js.is_alnum c) eqn:E.
  - intros H. rewrite (alnum_not_amp _ E), (IH _ H). reflexivity.
  - intros H. apply andb_true_iff in H as [H1 H2]. apply andb_true_iff in H1 as [H1 _].
    apply Ascii.eqb_eq in H1 as ->. simpl. rewrite (IH _ H2). reflexivity.
Qed.

Lemma norm_collapsed s : collapsed false (norm s) = true.
Proof. unfold norm. apply collapsed_trim, collapse_from_collapsed. Qed.

(** X1.  [norm] yields a normal form: normalizing twice is normalizing
    once. *)
Theorem norm_idempotent (s : string) : norm (norm s) = norm s.
Proof.
  pose proof (norm_collapsed s) as H.
  unfold norm at 1.
  rewrite (collapsed_toLowerCase _ _ H).
  unfold Js.replace_amp. rewrite (collapsed_replace_amp _ _ H).
  unfold Js.collapse_non_alnum. rewrite (collapse_from_id _ _ H).
  apply trim_id. unfold norm. apply trim_no_edge_space.
Qed.

(** X2.  The shape of a normalized string: only [[a-z0-9]] and spaces,
    no two spaces in a row, no space at either end. *)
Theorem norm_shape (s : string) :
  all_chars (fun c => Js.is_alnum c || Ascii.eqb c " ") (norm s) = true /\
  Js.includes (norm s) "  " = false /\
  no_edge_space (norm s).
Proof.
  split; [exact (collapsed_chars _ _ (norm_collapsed s))|].
  split; [exact (collapsed_no_double_space _ _ (norm_collapsed s))|].
  unfold norm. apply trim_no_edge_space.
Qed.

(** ** Further properties of the cohort resolution *)

(** X3.  Cohort resolution ignores letter case and surrounding white
    space: lowercasing or trimming the input beforehand changes
    nothing. *)
Theorem resolveCohortOptionId_insensitive (C : CohortOptions) (input : string) :
  resolveCohortOptionId C (Js.toLowerCase input) = resolveCohortOptionId C input /\
  resolveCohortOptionId C (Js.trim input) = resolveCohortOptionId C input.
Proof.
  unfold resolveCohortOptionId. split.
  - cbv zeta. rewrite trim_toLowerCase, toLowerCase_idem. reflexivity.
  - cbv zeta. rewrite trim_idem. reflexivity.
Qed.

(** ** Further properties of the payload *)

Lemma trimmed_idem x : trimmed (trimmed x) = trimmed x.
Proof.
  unfold trimmed. destruct (Js.truthy x) eqn:E; [|rewrite E; reflexivity].
  destruct (Js.truthy (Js.trim x)); [apply trim_idem | reflexivity].
Qed.

Lemma trimmed_no_edge_space x : no_edge_space (trimmed x).
Proof.
  unfold trimmed. destruct (Js.truthy x) eqn:E; [apply trim_no_edge_space|].
  destruct x; [split; reflexivity | discriminate].
Qed.

(** X4.  [normalizePayload] is idempotent, and none of the fields it
    yields has white space at either end. *)
Theorem normalizePayload_idempotent (req : ApplyRequest) :
  let p := normalizePayload req in
  normalizePayload {| body := p; file := file req |} = p /\
  Forall no_edge_space
    [ fullName p; email p; phone p; location p; otherLocation p; workEligibility p;
      reliableComputer p; backgroundCheck p; hasExperience p; experienceDescription p;
      certCompleted p; certificationsListed p; education p; otherEducation p;
      classSchedule p; commitmentLevel p; heardAbout p; engagementText p;
      additionalComments p ].
Proof.
  cbv zeta. split.
  - unfold normalizePayload. cbn [body fullName email phone location otherLocation
      workEligibility reliableComputer backgroundCheck hasExperience
      experienceDescription certCompleted certificationsListed education otherEducation
      classSchedule commitmentLevel heardAbout engagementText additionalComments].
    rewrite !trimmed_idem. reflexivity.
  - unfold normalizePayload. cbn [fullName email phone location otherLocation
      workEligibility reliableComputer backgroundCheck hasExperience
      experienceDescription certCompleted certificationsListed education otherEducation
      classSchedule commitmentLevel heardAbout engagementText additionalComments].
    repeat (apply Forall_cons; split; [apply trimmed_no_edge_space|]).
    apply Forall_nil. exact I.
Qed.

(** ** Further properties of the option resolver *)

Lemma find_id_sound pred opts id :
  find_id pred opts = Some id ->
  exists o, In o opts /\ pred o = true /\ opt_id o = id.
Proof.
  unfold find_id. destruct (List.find pred opts) as [o|] eqn:E; [|discriminate].
  cbn. intros [= <-]. apply find_some in E as [Hin Hp]. exists o. auto.
Qed.

Lemma or_next_some a b id : or_next a b = Some id -> a = Some id \/ b = Some id.
Proof. destruct a; simpl; auto. Qed.

Lemma guarded_find_sound (c : bool) pred opts id :
  (if c then find_id pred opts else None) = Some id ->
  exists o, In o opts /\ opt_id o = id.
Proof.
  destruct c; [|discriminate]. intros H.
  apply find_id_sound in H as (o & Hin & _ & Hid). exists o. auto.
Qed.

(** An id that [optionIdFor] returns belongs to an option cached for the
    field, and both arguments were present. *)
Lemma optionIdFor_some (OPTION_CACHE : OptionCache) (cf : CustomFields)
    (fieldId raw id : string) :
  optionIdFor OPTION_CACHE cf fieldId raw = Some id ->
  fieldId <> "" /\ raw <> "" /\
  exists opts o,
    OPTION_CACHE !! fieldId = Some opts /\ In o opts /\ opt_id o = id.
Proof.
  unfold optionIdFor.
  destruct fieldId as [|c fieldId]; [discriminate|].
  destruct raw as [|d raw]; [discriminate|].
  cbn [Js.truthy negb orb].
  set (f := String c fieldId). set (r := String d raw).
  destruct (OPTION_CACHE !! f) as [opts|]; cbv zeta; simpl default;
    [|discriminate].
  destruct (Nat.eqb (List.length opts) 0); [discriminate|].
  intros H. split; [discriminate|]. split; [discriminate|]. exists opts.
  assert (exists o, In o opts /\ opt_id o = id) as (o & Hin & Hid).
  { repeat match goal with
      | H : or_next _ _ = Some _ |- _ => apply or_next_some in H as [H | H]
      | H : find_id _ _ = Some _ |- _ =>
          apply find_id_sound in H as (o & Hin & _ & Hid); exists o; auto
      | H : (if String.eqb f _ then _ else None) = Some _ |- _ =>
          destruct (String.eqb f (WORK_ELIGIBILITY cf)); [|discriminate H]
      | H : (if _ then find_id _ _ else None) = Some _ |- _ =>
          exact (guarded_find_sound _ _ _ _ H)
      end. }
  exists o. auto.
Qed.

(** X5.  Whatever the input, an id that [optionIdFor] returns is the id
    of one of the options cached for that field: the resolver never makes
    up a value, and it returns null for a field that is not cached or has
    no options. *)
Theorem optionIdFor_sound (OPTION_CACHE : OptionCache) (cf : CustomFields)
    (fieldId raw : string) :
  (forall id,
     optionIdFor OPTION_CACHE cf fieldId raw = Some id ->
     exists opts o,
       OPTION_CACHE !! fieldId = Some opts /\ In o opts /\ opt_id o = id) /\
  (OPTION_CACHE !! fieldId = None \/ OPTION_CACHE !! fieldId = Some [] ->
   optionIdFor OPTION_CACHE cf fieldId raw = None).
Proof.
  split.
  - intros id H. apply optionIdFor_some in H as (_ & _ & H). exact H.
  - intros Hc.
    destruct (optionIdFor OPTION_CACHE cf fieldId raw) as [id|] eqn:H; [|reflexivity].
    apply optionIdFor_some in H as (_ & _ & opts & o & Hopts & Hin & _).
    destruct Hc as [Hc | Hc]; rewrite Hc in Hopts; [discriminate|].
    injection Hopts as <-. destruct Hin.
Qed.

(** X5 on the work-eligibility dropdown. *)
Lemma optionIdFor_sound_witness :
  exists opts o,
    cache_us !! we_field = Some opts /\ In o opts /\ opt_id o = "opt-ca".
Proof.
  destruct (optionIdFor_sound cache_us (CF sample_env) we_field "I am Canadian") as [H _].
  apply H. reflexivity.
Defined.

Lemma find_first_match {A} (pred : A -> bool) (before after : list A) (o : A) :
  Forall (fun p => pred p = false) before -> pred o = true ->
  List.find pred (before ++ o :: after)%list = Some o.
Proof.
  induction 1 as [|p before Hp _ IH]; simpl; intros Ho; [rewrite Ho; reflexivity|].
  rewrite Hp. apply IH, Ho.
Qed.

Lemma middle_nonempty {A} (before after : list A) (o : A) :
  Nat.eqb (List.length (before ++ o :: after)%list) 0 = false.
Proof. destruct before; reflexivity. Qed.

(** X6.  An option's own label resolves to that option: for a non-empty
    label, [optionIdFor] returns the id of the option, provided no option
    before it in the list has the same normalized label. *)
Theorem optionIdFor_own_label (OPTION_CACHE : OptionCache) (cf : CustomFields)
    (fieldId : string) (before after : list FieldOption) (o : FieldOption) :
  fieldId <> "" ->
  opt_name o <> "" ->
  OPTION_CACHE !! fieldId = Some (before ++ o :: after)%list ->
  Forall (fun p => norm (opt_name p) <> norm (opt_name o)) before ->
  optionIdFor OPTION_CACHE cf fieldId (opt_name o) = Some (opt_id o).
Proof.
  intros Hf Hn Hc Hbefore. unfold optionIdFor.
  rewrite (truthy_nonempty _ Hf), (truthy_nonempty _ Hn), Hc.
  cbn [negb orb]. simpl default. rewrite middle_nonempty. cbv zeta.
  unfold find_id at 1. rewrite find_first_match; [reflexivity| |apply String.eqb_refl].
  eapply Forall_impl; [exact Hbefore|]. intros p Hp. cbv beta.
  destruct (String.eqb_spec (norm (opt_name p)) (norm (opt_name o))); [contradiction|reflexivity].
Qed.

(** X6 on the last option of the work-eligibility dropdown. *)
Lemma optionIdFor_own_label_witness :
  optionIdFor cache_us (CF sample_env) we_field "None of the above" = Some "opt-none".
Proof.
  apply (optionIdFor_own_label cache_us (CF sample_env) we_field
           [ {| opt_id := "opt-us"; opt_name := "US Citizen or Permanent Resident" |};
             {| opt_id := "opt-ca"; opt_name := "Canadian Citizen or Permanent Resident" |} ]
           [] {| opt_id := "opt-none"; opt_name := "None of the above" |}).
  - discriminate.
  - discriminate.
  - reflexivity.
  - repeat constructor; discriminate.
Defined.

(** X7.  An answer made of punctuation only is not dropped: a non-empty
    raw value whose normal form is empty resolves, on a non-empty option
    list, to the first option whose normalized name is empty or, when
    there is none, to the first option of the list. *)
Theorem optionIdFor_punctuation_only (OPTION_CACHE : OptionCache) (cf : CustomFields)
    (fieldId raw : string) (o : FieldOption) (rest : list FieldOption) :
  fieldId <> "" ->
  raw <> "" ->
  norm raw = "" ->
  OPTION_CACHE !! fieldId = Some (o :: rest) ->
  optionIdFor OPTION_CACHE cf fieldId raw
  = Some (opt_id (default o
       (List.find (fun p => String.eqb (norm (opt_name p)) "") (o :: rest)))).
Proof.
  intros Hf Hr Hn Hc. unfold optionIdFor.
  rewrite (truthy_nonempty _ Hf), (truthy_nonempty _ Hr), Hc, Hn.
  cbn [negb orb]. simpl default at 1 2 3. cbn [List.length Nat.eqb]. cbv zeta.
  unfold find_id at 1.
  destruct (List.find (fun p => String.eqb (norm (opt_name p)) "") (o :: rest)) as [p|];
    [reflexivity|].
  cbn [fmap option_fmap option_map or_next]. simpl default.
  unfold find_id at 1. cbn [List.find].
  rewrite includes_empty, orb_true_r. reflexivity.
Qed.

(** X7 on the answer "-". *)
Lemma optionIdFor_punctuation_only_witness :
  optionIdFor cache_us (CF sample_env) we_field "-" = Some "opt-us".
Proof.
  apply (optionIdFor_punctuation_only cache_us (CF sample_env) we_field "-"
           {| opt_id := "opt-us"; opt_name := "US Citizen or Permanent Resident" |}
           [ {| opt_id := "opt-ca"; opt_name := "Canadian Citizen or Permanent Resident" |};
             {| opt_id := "opt-none"; opt_name := "None of the above" |} ]).
  - discriminate.
  - discriminate.
  - reflexivity.
  - reflexivity.
Defined.

(** ** Further properties of the custom fields *)

Lemma truthy_nonempty_inv s : Js.truthy s = true -> s <> "".
Proof. destruct s; [discriminate | discriminate]. Qed.

(** X8.  [pushDropdownOrText] keeps the assignments it is given and
    appends at most one, for the given field and with a non-empty value;
    when the field has cached options, that value is the id of one of
    them, never the raw text as such. *)
Theorem pushDropdownOrText_appends (OPTION_CACHE : OptionCache) (cf : CustomFields)
    (custom_fields : list FieldAssignment) (fieldId raw : string) :
  exists added,
    pushDropdownOrText OPTION_CACHE cf custom_fields fieldId raw
    = (custom_fields ++ added)%list /\
    List.length added <= 1 /\
    forall a, In a added ->
      field_id a = fieldId /\ fieldId <> "" /\ field_value a <> "" /\
      forall opts, OPTION_CACHE !! fieldId = Some opts ->
        exists o, In o opts /\ field_value a = opt_id o.
Proof.
  unfold pushDropdownOrText.
  destruct (Js.truthy fieldId) eqn:Hf; cbn [negb orb].
  2:{ exists []. rewrite app_nil_r. split; [reflexivity|]. split; [cbn; lia|]. intros a []. }
  destruct (Js.truthy raw) eqn:Hr; cbn [negb orb].
  2:{ exists []. rewrite app_nil_r. split; [reflexivity|]. split; [cbn; lia|]. intros a []. }
  cbv zeta.
  destruct (optionIdFor OPTION_CACHE cf fieldId raw) as [id|] eqn:Hid; cbn [id_truthy].
  - destruct (Js.truthy id) eqn:Ht.
    + eexists [_]. split; [reflexivity|]. split; [cbn; lia|].
      intros a [<- | []]. cbn. split; [reflexivity|].
      split; [exact (truthy_nonempty_inv _ Hf)|]. split; [exact (truthy_nonempty_inv _ Ht)|].
      intros opts Hc. apply optionIdFor_some in Hid as (_ & _ & opts' & o & Hc' & Hin & Ho).
      exists o. split; congruence.
    + apply optionIdFor_some in Hid as (_ & _ & opts' & o & Hc' & _).
      rewrite bool_decide_eq_true_2 by (rewrite Hc'; eexists; reflexivity).
      exists []. rewrite app_nil_r. split; [reflexivity|]. split; [cbn; lia|]. intros a [].
  - destruct (OPTION_CACHE !! fieldId) as [opts|] eqn:Hc.
    + rewrite bool_decide_eq_true_2 by (eexists; reflexivity).
      exists []. rewrite app_nil_r. split; [reflexivity|]. split; [cbn; lia|]. intros a [].
    + rewrite bool_decide_eq_false_2 by (intros [x Hx]; discriminate).
      eexists [_]. split; [reflexivity|]. split; [cbn; lia|].
      intros a [<- | []]. cbn. split; [reflexivity|].
      split; [exact (truthy_nonempty_inv _ Hf)|]. split; [exact (truthy_nonempty_inv _ Hr)|].
      intros opts Hopts. discriminate.
Qed.

Lemma push_text_filled (custom_fields : list FieldAssignment) (fieldId v : string) :
  Forall (fun a => field_id a <> "" /\ field_value a <> "") custom_fields ->
  Forall (fun a => field_id a <> "" /\ field_value a <> "")
    (push_text custom_fields fieldId v).
Proof.
  intros H. unfold push_text.
  destruct (Js.truthy fieldId) eqn:Hf; [|exact H].
  destruct (Js.truthy v) eqn:Hv; [|exact H]. cbn [andb].
  apply Forall_app. split; [exact H|]. apply Forall_singleton. cbn.
  split; apply truthy_nonempty_inv; assumption.
Qed.

Lemma pushDropdownOrText_filled OPTION_CACHE cf
    (custom_fields : list FieldAssignment) (fieldId raw : string) :
  Forall (fun a => field_id a <> "" /\ field_value a <> "") custom_fields ->
  Forall (fun a => field_id a <> "" /\ field_value a <> "")
    (pushDropdownOrText OPTION_CACHE cf custom_fields fieldId raw).
Proof.
  intros H. unfold pushDropdownOrText.
  destruct (Js.truthy fieldId) eqn:Hf; cbn [negb orb]; [|exact H].
  destruct (Js.truthy raw) eqn:Hr; cbn [negb orb]; [|exact H].
  cbv zeta.
  destruct (optionIdFor OPTION_CACHE cf fieldId raw) as [id|]; cbn [id_truthy].
  - destruct (Js.truthy id) eqn:Ht.
    + apply Forall_app. split; [exact H|]. apply Forall_singleton. cbn.
      split; apply truthy_nonempty_inv; assumption.
    + destruct (negb _); [|exact H].
      apply Forall_app. split; [exact H|]. apply Forall_singleton. cbn.
      split; apply truthy_nonempty_inv; assumption.
  - destruct (negb _); [|exact H].
    apply Forall_app. split; [exact H|]. apply Forall_singleton. cbn.
    split; apply truthy_nonempty_inv; assumption.
Qed.

(** X9.  No assignment of the list built for a submission has an empty
    field id or an empty value: unset fields and blank answers are left
    out. *)
Theorem build_custom_fields_filled (OPTION_CACHE : OptionCache) (cf : CustomFields)
    (p : Form) :
  Forall (fun a => field_id a <> "" /\ field_value a <> "")
    (build_custom_fields OPTION_CACHE cf p).
Proof.
  unfold build_custom_fields. cbv zeta.
  repeat first
    [ apply push_text_filled
    | apply pushDropdownOrText_filled
    | match goal with
      | |- Forall _ (if ?c then _ else _) => destruct c
      end
    | apply Forall_nil_2 ].
Qed.

(** ** Further properties of the task description *)

Lemma includes_app_intro (before s rest : string) :
  Js.includes (before ++ s ++ rest) s = true.
Proof. apply includes_spec. exists before, rest. reflexivity. Qed.

Lemma includes_trans (a b c : string) :
  Js.includes a b = true -> Js.includes b c = true -> Js.includes a c = true.
Proof.
  rewrite !includes_spec. intros (x & y & ->) (x' & y' & ->).
  exists (x ++ x'), (y' ++ y). rewrite !app_assoc_string. reflexivity.
Qed.

Lemma includes_suffix (before s : string) : Js.includes (before ++ s) s = true.
Proof. apply includes_spec. exists before, "". rewrite app_empty_r. reflexivity. Qed.

(** Every row occurs in the joined text. *)
Lemma join_lines_includes rows r :
  In r rows -> Js.includes (join_lines rows) r = true.
Proof.
  induction rows as [|x rows IH]; [intros []|].
  intros [-> | Hin].
  - destruct rows as [|y rows]; [apply includes_refl|].
    apply includes_spec. exists "", (nl ++ join_lines (y :: rows)). reflexivity.
  - destruct rows as [|y rows]; [destruct Hin|].
    apply (includes_trans _ (join_lines (y :: rows))); [|apply IH, Hin].
    change (join_lines (x :: y :: rows)) with (x ++ nl ++ join_lines (y :: rows)).
    rewrite <- app_assoc_string. apply includes_suffix.
Qed.

Lemma row_if_keeps v line rows r : In r rows -> In r (row_if v line rows).
Proof. unfold row_if. destruct (Js.truthy v); [|tauto]. intros H. apply in_or_app. auto. Qed.

Lemma row_if_adds v line rows : Js.truthy v = true -> In line (row_if v line rows).
Proof. unfold row_if. intros ->. apply in_or_app. right. left. reflexivity. Qed.

Ltac find_row :=
  repeat first [ apply row_if_adds; assumption | apply row_if_keeps ].

Ltac described line :=
  eapply includes_trans;
  [ apply join_lines_includes with (r := line); find_row | ].

(** X10.  No answer is lost from the task description: each of the
    fourteen answers the description prints occurs in it when present,
    those on experience and certifications among them; and these four
    are description-only, the custom fields being the same whatever they
    are. *)
Theorem description_keeps_answers (p : Form) :
  Forall (fun answer => Js.truthy answer = true ->
                        Js.includes (buildTaskDescription p) answer = true)
    [ email p; phone p; location p; workEligibility p; education p; heardAbout p;
      classSchedule p; commitmentLevel p; hasExperience p; experienceDescription p;
      certCompleted p; certificationsListed p; engagementText p; additionalComments p ] /\
  forall OPTION_CACHE cf experience details status listed,
    build_custom_fields OPTION_CACHE cf
      {| fullName := fullName p; email := email p; phone := phone p;
         location := location p; otherLocation := otherLocation p;
         workEligibility := workEligibility p; reliableComputer := reliableComputer p;
         backgroundCheck := backgroundCheck p;
         hasExperience := experience; experienceDescription := details;
         certCompleted := status; certificationsListed := listed;
         education := education p; otherEducation := otherEducation p;
         classSchedule := classSchedule p; commitmentLevel := commitmentLevel p;
         heardAbout := heardAbout p; engagementText := engagementText p;
         additionalComments := additionalComments p |}
    = build_custom_fields OPTION_CACHE cf p.
Proof.
  split; [|reflexivity].
  unfold buildTaskDescription. cbv zeta.
  repeat (apply Forall_cons; split); [..|apply Forall_nil_2]; intros H.
  - described ("- **Email:** " ++ email p). apply includes_suffix.
  - described ("- **Phone:** " ++ phone p). apply includes_suffix.
  - described ("- **Location:** " ++ location p ++ parenthesized (otherLocation p)).
    apply includes_app_intro.
  - described ("- **Work eligibility:** " ++ workEligibility p). apply includes_suffix.
  - described ("- **Education:** " ++ education p ++ parenthesized (otherEducation p)).
    apply includes_app_intro.
  - described ("- **Heard about us:** " ++ heardAbout p). apply includes_suffix.
  - described ("- **Class availability:** " ++ classSchedule p). apply includes_suffix.
  - described ("- **Commitment:** " ++ commitmentLevel p). apply includes_suffix.
  - described ("- **Prior IT experience:** " ++ hasExperience p). apply includes_suffix.
  - described (nl ++ "**Experience details**" ++ nl ++ experienceDescription p).
    rewrite <- !app_assoc_string. apply includes_suffix.
  - described (nl ++ "**Certifications status:** " ++ certCompleted p).
    rewrite <- !app_assoc_string. apply includes_suffix.
  - described ("**Certifications listed:** " ++ certificationsListed p). apply includes_suffix.
  - described (nl ++ "**Engagement requirement ack:** " ++ engagementText p).
    rewrite <- !app_assoc_string. apply includes_suffix.
  - described (nl ++ "**Additional comments**" ++ nl ++ additionalComments p).
    rewrite <- !app_assoc_string. apply includes_suffix.
Qed.

(** X10 on the sample form: the work-eligibility answer is in the
    description. *)
Lemma description_keeps_answers_witness :
  Js.includes (buildTaskDescription sample_form) "us citizen" = true.
Proof.
  destruct (description_keeps_answers sample_form) as [H _].
  rewrite Forall_forall in H.
  apply (H (workEligibility sample_form)); [|reflexivity].
  do 3 apply list_elem_of_further. apply list_elem_of_here.
Defined.

(** ** Further properties of the cache refresh *)

Lemma cache_field_other (c : OptionCache) g fieldId :
  def_id g <> fieldId \/ def_options g = None ->
  cache_field c g !! fieldId = c !! fieldId.
Proof.
  unfold cache_field. intros [Hne | ->]; [|reflexivity].
  destruct (def_options g); [|reflexivity]. apply lookup_insert_ne, Hne.
Qed.

Lemma foldl_cache_field_other later (c : OptionCache) fieldId :
  Forall (fun g => def_id g <> fieldId \/ def_options g = None) later ->
  foldl cache_field c later !! fieldId = c !! fieldId.
Proof.
  intros H. revert c. induction H as [|g later Hg _ IH]; intros c; [reflexivity|].
  cbn [foldl]. rewrite IH. apply cache_field_other, Hg.
Qed.

(** X11.  After a refresh whose fetch answered with a body that parses,
    every listed field with an option array has its entry: the options of
    its last listing, when the field is listed more than once. *)
Theorem warmDropdowns_caches_every_dropdown (w : World) (env : Env) (st : State)
    (r : Response) (j : Json) (earlier later : list FieldDef) (f : FieldDef)
    (options : list FieldOption) :
  remote w (calls st) (GetListFields (CLICKUP_LIST_ID env)) = Answers r ->
  json r = Some j ->
  j_fields j = (earlier ++ f :: later)%list ->
  def_options f = Some options ->
  Forall (fun g => def_id g <> def_id f \/ def_options g = None) later ->
  cache (warmDropdowns w env st).2 !! def_id f = Some options.
Proof.
  intros Hr Hj Hfields Hopt Hlater.
  rewrite warmDropdowns_run. cbn [snd cache]. rewrite Hr. cbn [warmed_cache].
  rewrite Hj, Hfields, foldl_app. cbn [foldl].
  rewrite (foldl_cache_field_other _ _ _ Hlater).
  unfold cache_field at 1. rewrite Hopt, cache_field_options. apply lookup_insert_eq.
Qed.

(** ** Further properties of the cohort endpoint *)

Lemma env_or_null_truthy v :
  id_truthy (env_or_null v) = true -> default "" (env_or_null v) = v /\ v <> "".
Proof.
  unfold env_or_null. destruct (Js.truthy v) eqn:E; [|discriminate].
  intros _. split; [reflexivity | exact (truthy_nonempty_inv _ E)].
Qed.

(** A cohort id that resolves is one of the two configured ids. *)
Lemma resolveCohortOptionId_configured env input :
  id_truthy (resolveCohortOptionId (COHORT_OPTIONS env) input) = true ->
  let v := default "" (resolveCohortOptionId (COHORT_OPTIONS env) input) in
  v <> "" /\ (v = COHORT_OCT_ID env \/ v = COHORT_JAN_ID env).
Proof.
  rewrite resolveCohortOptionId_by_substring. cbv zeta.
  cbn [COHORT_OPTIONS october january].
  destruct (_ || _).
  - intros H. apply env_or_null_truthy in H as [-> H]. auto.
  - destruct (_ || _); [|discriminate].
    intros H. apply env_or_null_truthy in H as [-> H]. auto.
Qed.

(** X12.  The cohort handler always answers, with status 200, 400 or
    500, and leaves the option cache and the temporary directories alone.
    It makes no remote call or exactly one: a field update of the cohort
    field of the task, whose value is one of the two configured cohort
    option ids; and it answers 200 exactly when that update was answered
    with a success status. *)
Theorem cohort_handler_outcomes (w : World) (env : Env) (req : CohortRequest)
    (st : State) :
  exists resp st',
    cohort_handler w env req st = (Returns resp, st') /\
    cache st' = cache st /\ tmp st' = tmp st /\
    ((new_calls st st' = [] /\
      (http_status resp = 400 \/ http_status resp = 500)) \/
     (exists idToUse qs v out,
        new_calls st st' = [ (SetField idToUse (COHORT (CF env)) qs v, out) ] /\
        idToUse <> "" /\ v <> "" /\
        (v = COHORT_OCT_ID env \/ v = COHORT_JAN_ID env) /\
        ((http_status resp = 200 /\ exists r, out = Answers r /\ ok r = true) \/
         (http_status resp = 400 /\ exists r, out = Answers r /\ ok r = false) \/
         (http_status resp = 500 /\ exists e, out = Rejects e)))).
Proof.
  destruct (cohort_handler w env req st) as [res st'] eqn:Hrun.
  unfold cohort_handler in Hrun. unfold_handler Hrun.
  decide_run Hrun.
  all: read_run Hrun.
  all: eexists _, _; split; [reflexivity|]; split; [reflexivity|]; split; [reflexivity|].
  all: cbn [http_status].
  all: try (left; split; [apply new_calls_none | auto]; fail).
  all: right; eexists _, _, _, _.
  all: split; [apply new_calls_app; reflexivity|].
  all: split; [apply truthy_nonempty_inv; assumption|].
  all: match goal with
       | H : id_truthy _ = true |- _ =>
           destruct (resolveCohortOptionId_configured _ _ H) as [Hv Hid]
       end.
  all: split; [exact Hv|]; split; [exact Hid|].
  all: eauto 6.
Qed.

(** ** Further properties of the creation endpoint *)

(** X13.  The creation handler always answers, and always with status
    200, errors included; it leaves the temporary directories alone.  Its
    remote calls are, in this order: the field-list fetch; then, when a
    video is attached, one task creation whose custom fields are those
    built on the cache of this very refresh; then, when the creation
    succeeded, one attachment upload to the created task; then, when the
    upload succeeded, at most one update of the video-URL field.  Nothing
    is called twice. *)
Theorem apply_handler_outcomes (w : World) (env : Env) (req : ApplyRequest) (st : State) :
  exists resp st',
    apply_handler w env req st = (Returns resp, st') /\
    http_status resp = 200 /\
    tmp st' = tmp st /\
    exists trace,
      new_calls st st'
      = (GetListFields (CLICKUP_LIST_ID env),
         remote w (calls st) (GetListFields (CLICKUP_LIST_ID env))) :: trace /\
      (trace = [] \/
       exists body create after_create,
         trace = (CreateTask (CLICKUP_LIST_ID env) body, create) :: after_create /\
         task_custom_fields body
         = build_custom_fields (cache st') (CF env) (normalizePayload req) /\
         has_video req = true /\
         (after_create = [] \/
          exists r created f up after_upload,
            after_create
            = (UploadAttachment (j_id created) (team_query env)
                 (Js.or_else (originalname f) "video.mp4")
                 (Js.or_else (mimetype f) "application/octet-stream")
                 (Bytes (buffer f)), up) :: after_upload /\
            create = Answers r /\ ok r = true /\ json r = Some created /\
            file req = Some f /\
            (after_upload = [] \/
             exists ru url out,
               after_upload
               = [ (SetField (j_id created) (DCA_VIDEO_URL (CF env))
                      (team_query env) url, out) ] /\
               up = Answers ru /\ ok ru = true /\ url <> ""))).
Proof.
  destruct (apply_handler w env req st) as [res st'] eqn:Hrun.
  unfold apply_handler, try_catch at 1, mbind at 1, Handler_bind at 1 in Hrun.
  rewrite warmDropdowns_run in Hrun. unfold upload_video in Hrun.
  unfold_handler Hrun. decide_run Hrun.
  all: read_run Hrun.
  all: eexists _, _; split; [reflexivity|]; split; [reflexivity|]; split; [reflexivity|].
  all: cbn [cache]; cbv zeta.
  all: eexists; split; [apply new_calls_app; cbn [calls]; rewrite <- ?app_assoc; reflexivity|].
  all: try (left; reflexivity).
  all: right; eexists _, _, _; split; [reflexivity|]; split; [reflexivity|];
         split; [first [assumption | reflexivity]|].
  all: try (left; reflexivity).
  all: right; eexists _, _, _, _, _; split; [reflexivity|];
         repeat (split; [eassumption || reflexivity|]).
  all: try (left; reflexivity).
  all: right; eexists _, _, _; split; [reflexivity|];
         repeat (split; [eassumption || reflexivity|]).
  all: apply truthy_nonempty_inv; eassumption.
Qed.

(** X14.  A submission never sees option-cache entries of an earlier
    refresh: the handler's answer, its calls and the state it leaves are
    the same whatever the cache held before. *)
Theorem apply_handler_ignores_prior_cache (w : World) (env : Env) (req : ApplyRequest)
    (before before' : OptionCache) (sent : list (Call * Outcome))
    (dirs : gmap string (gmap string FileData)) :
  apply_handler w env req {| cache := before; calls := sent; tmp := dirs |}
  = apply_handler w env req {| cache := before'; calls := sent; tmp := dirs |}.
Proof.
  unfold apply_handler, try_catch, mbind, Handler_bind.
  rewrite !warmDropdowns_run. reflexivity.
Qed.

(** ** Further properties of the guarantee-signature endpoint *)


(** X11 on a list that names the field "cf-class" twice: the cache holds
    the options of the second listing. *)
Lemma warmDropdowns_caches_every_dropdown_witness :
  cache (warmDropdowns (world_with lists_fields) sample_env stale_state).2 !! "cf-class"
  = Some [ {| opt_id := "opt-no"; opt_name := "No" |};
           {| opt_id := "opt-yes"; opt_name := "Yes" |} ].
Proof.
  eapply (warmDropdowns_caches_every_dropdown (world_with lists_fields) sample_env
            stale_state _ _
            [ {| def_id := "cf-class";
                 def_options := Some [ {| opt_id := "old-yes"; opt_name := "Yes" |} ] |};
              {| def_id := "cf-notes"; def_options := None |} ]
            []
            {| def_id := "cf-class";
               def_options := Some [ {| opt_id := "opt-no"; opt_name := "No" |};
                                     {| opt_id := "opt-yes"; opt_name := "Yes" |} ] |}).
  - reflexivity.
  - reflexivity.
  - reflexivity.
  - reflexivity.
  - constructor.
Defined.

(** ** Properties of the payment-method endpoint *)

(** What is sent for a method that the lookup finds. *)
Lemma sent_value_spec inherited m found :
  optionIdMap inherited m = found ->
  found <> Undefined ->
  (m = "pay_in_full" /\ sent_value found = "203361fe-94f4-4173-96d9-2e7335cc6be7") \/
  (m = "pay_as_you_go" /\ sent_value found = "5f6b1dc7-b5b4-4a30-817b-8e5e5026e3a6") \/
  (m = "climb_loan" /\ sent_value found = "ff05f2a5-a7c4-42f9-8a48-bb1c6ce1eb2c") \/
  inherited m = Some (sent_value found).
Proof.
  unfold optionIdMap. intros <-.
  destruct (String.eqb_spec m "pay_in_full") as [E|_];
    [intros _; left; split; [exact E | reflexivity]|].
  destruct (String.eqb_spec m "pay_as_you_go") as [E|_];
    [intros _; right; left; split; [exact E | reflexivity]|].
  destruct (String.eqb_spec m "climb_loan") as [E|_];
    [intros _; right; right; left; split; [exact E | reflexivity]|].
  destruct (inherited m) as [rendering|]; [|contradiction].
  intros _. right. right. right. reflexivity.
Qed.

(** X16.  The payment-method handler always answers, with status 200, 400
    or 500, and changes neither the option cache nor the temporary
    directories.  Every field update it sends is for the payment-method
    field of a named task, and its value is the fixed option id of the
    method, for the three method keys; any other method sends nothing,
    unless its name is one that the map inherits from [Object.prototype].
    It answers 200 only after a field update that was answered with a
    success status. *)
Theorem payment_method_outcomes (inherited : string -> option string)
    (w : World) (env : Env) (req : PaymentRequest) (st : State) :
  exists resp st',
    payment_method_handler inherited w env req st = (Returns resp, st') /\
    cache st' = cache st /\ tmp st' = tmp st /\
    (pm_status resp = 200 \/ pm_status resp = 400 \/ pm_status resp = 500) /\
    (forall id field qs v out,
       (SetField id field qs v, out) ∈ new_calls st st' ->
       field = PAYMENT_METHOD (CF env) /\ id <> "" /\
       ((method req = "pay_in_full" /\ v = "203361fe-94f4-4173-96d9-2e7335cc6be7") \/
        (method req = "pay_as_you_go" /\ v = "5f6b1dc7-b5b4-4a30-817b-8e5e5026e3a6") \/
        (method req = "climb_loan" /\ v = "ff05f2a5-a7c4-42f9-8a48-bb1c6ce1eb2c") \/
        inherited (method req) = Some v)) /\
    (pm_status resp = 200 ->
     exists id qs v r,
       (SetField id (PAYMENT_METHOD (CF env)) qs v, Answers r) ∈ new_calls st st' /\
       ok r = true).
Proof.
  destruct (payment_method_handler inherited w env req st) as [res st'] eqn:Hrun.
  unfold payment_method_handler, resolveTaskId, pm_respond in Hrun.
  unfold_handler Hrun. decide_run Hrun.
  all: read_run Hrun.
  all: eexists _, _; split; [reflexivity|]; split; [reflexivity|]; split; [reflexivity|].
  all: cbn [pm_status]; split; [auto|].
  all: split; [|try discriminate].
  all: try solve [intros ? ? ? ? ? Hin; split_exchanges].
  all: try (intros ? ? ? ? ? Hin; split_exchanges;
            split; [reflexivity|]; split; [apply truthy_nonempty_inv; assumption|];
            match goal with
            | H : optionIdMap _ _ = _ |- _ =>
                exact (sent_value_spec _ _ _ H ltac:(discriminate))
            end).
  all: intros _; eexists _, _, _, _; split; [|eassumption].
  all: unfold new_calls; cbn [calls]; rewrite <- ?app_assoc; rewrite drop_app_length.
  all: cbn [app]; first [ apply list_elem_of_here
                        | apply list_elem_of_further, list_elem_of_here ].
Qed.

(** The three method keys and a name every object inherits: the key
    sends its option id, an unknown method is refused without a call, and
    "constructor" passes the test and sends an update without a value. *)
Example payment_method_examples :
  let run m := payment_method_handler object_prototype (world_with always_ok)
                 {| CLICKUP_TOKEN := ""; CLICKUP_LIST_ID := ""; CLICKUP_TEAM_ID := "";
                    CLICKUP_CUSTOM_TASK_IDS := ""; CF_ENGAGEMENT_REQ := "";
                    CF_ADDITIONAL_COMMENTS := ""; CF_EMAIL := ""; CF_PHONE := "";
                    CF_LOCATION := ""; CF_OTHER_LOCATION := ""; CF_WORK_ELIGIBILITY := "";
                    CF_RELIABLE_COMPUTER := ""; CF_EDUCATION := ""; CF_OTHER_EDUCATION := "";
                    CF_CLASS_SCHEDULE := ""; CF_COMMITMENT_LEVEL := "";
                    CF_BACKGROUND_CHECK := ""; CF_HEARD_ABOUT := ""; CF_COHORT := "";
                    CF_DCA_VIDEO_URL := ""; CF_PAYMENT_METHOD := "cf-pay";
                    CF_GUARANTEE_SIGNED := ""; COHORT_OCT_ID := ""; COHORT_JAN_ID := "" |}
                 {| pm_taskId := "86a1b2c3"; pm_customTaskId := ""; method := m |}
                 fresh_state in
  (pm_status <$> (match (run "climb_loan").1 with Returns r => Some r | Throws _ => None end),
   fst <$> calls (run "climb_loan").2)
  = (Some 200, [ SetField "86a1b2c3" "cf-pay" "" "ff05f2a5-a7c4-42f9-8a48-bb1c6ce1eb2c" ]) /\
  (pm_status <$> (match (run "cash").1 with Returns r => Some r | Throws _ => None end),
   fst <$> calls (run "cash").2)
  = (Some 400, []) /\
  (pm_status <$> (match (run "constructor").1 with Returns r => Some r | Throws _ => None end),
   fst <$> calls (run "constructor").2)
  = (Some 200, [ SetField "86a1b2c3" "cf-pay" "" "" ]).
Proof. cbv zeta. repeat split; vm_compute; reflexivity. Qed.

(** ** The Yes/No shorthand *)

Lemma find_id_is_none pred opts :
  find_id pred opts = None <-> forall o, In o opts -> pred o = false.
Proof.
  unfold find_id. split.
  - destruct (List.find pred opts) eqn:E; [discriminate|].
    intros _. apply find_none, E.
  - intros H. destruct (List.find pred opts) as [o|] eqn:E; [|reflexivity].
    apply find_some in E as [Hin Hp]. rewrite (H o Hin) in Hp. discriminate.
Qed.

(** Where the substring rule finds nothing, no option is named [word],
    for an input that occurs in [word]. *)
Lemma shorthand_finds_nothing opts u word :
  Js.includes word u = true ->
  find_id (fun o => let on := norm (opt_name o) in
             Js.includes u on || Js.includes on u) opts = None ->
  find_id (fun o => String.eqb (norm (opt_name o)) word) opts = None.
Proof.
  intros Hword Hnone. apply find_id_is_none. intros o Hin.
  destruct (String.eqb_spec (norm (opt_name o)) word) as [Heq|]; [|reflexivity].
  rewrite find_id_is_none in Hnone. specialize (Hnone o Hin). cbv zeta in Hnone.
  rewrite Heq, Hword, orb_true_r in Hnone. discriminate.
Qed.

(** X17.  The Yes/No shorthand never decides.  For every field but work
    eligibility, [optionIdFor] is its first two rules: the first option
    whose normalized name equals the normalized input, or else the first
    option whose normalized name contains it or occurs in it.  An option
    named "yes" contains the inputs "yes" and "y", so the shorthand is
    reached only when there is no such option. *)
Theorem optionIdFor_two_rules (OPTION_CACHE : OptionCache) (cf : CustomFields)
    (fieldId raw : string) (opts : list FieldOption) :
  fieldId <> WORK_ELIGIBILITY cf ->
  fieldId <> "" ->
  raw <> "" ->
  OPTION_CACHE !! fieldId = Some opts ->
  optionIdFor OPTION_CACHE cf fieldId raw
  = or_next
      (find_id (fun o => String.eqb (norm (opt_name o)) (norm raw)) opts)
      (find_id (fun o => Js.includes (norm raw) (norm (opt_name o))
                         || Js.includes (norm (opt_name o)) (norm raw)) opts).
Proof.
  intros Hwe Hf Hr Hc. unfold optionIdFor.
  rewrite (truthy_nonempty _ Hf), (truthy_nonempty _ Hr), Hc.
  cbn [negb orb]. simpl default. cbv zeta.
  destruct (String.eqb_spec fieldId (WORK_ELIGIBILITY cf)) as [|_]; [contradiction|].
  destruct opts as [|o opts]; [reflexivity|]. cbn [List.length Nat.eqb].
  destruct (find_id (fun o => String.eqb (norm (opt_name o)) (norm raw)) (o :: opts));
    [reflexivity|].
  cbn [or_next].
  destruct (find_id _ (o :: opts)) eqn:Hcontains; [reflexivity|].
  cbn [or_next].
  destruct (String.eqb_spec (norm raw) "yes") as [Hyes|_];
    [rewrite Hyes in *; rewrite (shorthand_finds_nothing _ "yes" "yes" eq_refl Hcontains);
     reflexivity|].
  destruct (String.eqb_spec (norm raw) "y") as [Hy|_];
    [rewrite Hy in *; rewrite (shorthand_finds_nothing _ "y" "yes" eq_refl Hcontains);
     reflexivity|].
  cbn [orb or_next].
  destruct (String.eqb_spec (norm raw) "no") as [Hno|_];
    [rewrite Hno in *; rewrite (shorthand_finds_nothing _ "no" "no" eq_refl Hcontains);
     reflexivity|].
  destruct (String.eqb_spec (norm raw) "n") as [Hn|_];
    [rewrite Hn in *; rewrite (shorthand_finds_nothing _ "n" "no" eq_refl Hcontains);
     reflexivity|].
  reflexivity.
Qed.

(** X17 on the Yes/No dropdown and the input "Y". *)
Lemma optionIdFor_two_rules_witness :
  optionIdFor cache_yes_no (CF sample_env) "cf-class" "Y" = Some "opt-yes".
Proof.
  rewrite (optionIdFor_two_rules cache_yes_no (CF sample_env) "cf-class" "Y"
             [ {| opt_id := "opt-no"; opt_name := "No" |};
               {| opt_id := "opt-yes"; opt_name := "Yes" |} ]).
  - reflexivity.
  - discriminate.
  - discriminate.
  - discriminate.
  - reflexivity.
Defined.

(** ** File names and data URLs *)

Lemma all_chars_excludes p s c :
  all_chars p s = true -> p c = false -> Js.includes s (String c "") = false.
Proof.
  intros Hall Hc. induction s as [|d s IH]; [reflexivity|].
  cbn [all_chars] in Hall. apply andb_true_iff in Hall as [Hd Hs].
  cbn [Js.includes Js.startsWith]. rewrite (IH Hs), orb_false_r.
  destruct (Ascii.eqb_spec c d) as [->|]; [congruence | reflexivity].
Qed.

Lemma strip_name_chars s : all_chars is_name_char (strip_name s) = true.
Proof.
  induction s as [|c s IH]; [reflexivity|].
  cbn [strip_name]. destruct (is_name_char c) eqn:E; [|exact IH].
  cbn [all_chars]. rewrite E, IH. reflexivity.
Qed.

(** X18.  The signer's name enters the file name through a filter that
    keeps letters, digits, underscores, hyphens and spaces only: what it
    yields has no path separator and no dot, and a name made of such
    characters passes unchanged. *)
Theorem strip_name_safe (s : string) :
  all_chars is_name_char (strip_name s) = true /\
  Js.includes (strip_name s) "/" = false /\
  Js.includes (strip_name s) "\" = false /\
  Js.includes (strip_name s) "." = false /\
  (all_chars is_name_char s = true -> strip_name s = s).
Proof.
  pose proof (strip_name_chars s) as H.
  split; [exact H|].
  split; [exact (all_chars_excludes _ _ "/" H eq_refl)|].
  split; [exact (all_chars_excludes _ _ "\" H eq_refl)|].
  split; [exact (all_chars_excludes _ _ "." H eq_refl)|].
  clear H. induction s as [|c s IH]; [reflexivity|].
  cbn [all_chars strip_name]. intros Hall. apply andb_true_iff in Hall as [-> Hs].
  rewrite (IH Hs). reflexivity.
Qed.

Lemma upto_comma_stops payload junk :
  comma_free payload = true ->
  upto_comma (payload ++ String "," junk) = payload /\ upto_comma payload = payload.
Proof.
  unfold comma_free. induction payload as [|c payload IH]; [split; reflexivity|].
  rewrite app_cons_string. cbn [all_chars upto_comma]. intros H.
  apply andb_true_iff in H as [Hc Hp]. apply negb_true_iff in Hc. rewrite Hc.
  destruct (IH Hp) as [-> ->]. split; reflexivity.
Qed.

(** X19.  Of a data URL, [split(',')[1]] is the payload: what stands
    between the first comma and the next, or the end.  A string without a
    comma has none, which the handler refuses as a bad signature. *)
Theorem split_comma_1_payload (header payload junk : string) :
  comma_free header = true ->
  comma_free payload = true ->
  split_comma_1 (header ++ String "," payload) = payload /\
  split_comma_1 (header ++ String "," (payload ++ String "," junk)) = payload /\
  split_comma_1 header = "".
Proof.
  unfold comma_free. intros Hh Hp.
  destruct (upto_comma_stops payload junk Hp) as [Hjunk Hplain].
  induction header as [|c header IH].
  - rewrite !app_nil_string. cbn [split_comma_1]. rewrite Ascii.eqb_refl.
    split; [exact Hplain|]. split; [exact Hjunk | reflexivity].
  - rewrite !app_cons_string. cbn [all_chars split_comma_1] in *.
    apply andb_true_iff in Hh as [Hc Hh]. apply negb_true_iff in Hc. rewrite Hc.
    apply IH, Hh.
Qed.

(** X19 on the signature of the sample request. *)
Lemma split_comma_1_payload_witness :
  split_comma_1 (signaturePng sign_request) = "iVBORw0KGgo=".
Proof.
  apply (split_comma_1_payload "data:image/png;base64" "iVBORw0KGgo=" "");
    reflexivity.
Defined.
